(** * T H A R A image creator: acquisition, synthesis, watermarking, session state

    A shallow embedding of the three units of the application
    ([utils/fileUtils.ts], the Gemini service client and the [App]
    component's handlers) together with the properties they satisfy.

    Conventions.
    - A JavaScript string is a [string]; every character stands for one
      code unit below 256, which covers data URLs, media types and base64
      text.  Within that alphabet the line terminators that the regular
      expression dot refuses are LF and CR.
    - [undefined] is [None]; a property typed [T | null] is an [option T].
    - A JavaScript number is an IEEE 754 binary64 value, modelled by the
      Standard Library's executable [spec_float] with [prec = 53] and
      [emax = 1024].
    - Asynchronous code is a tree of requests to the environment (the remote
      service, the image decoder, the canvas, React's state setters); an
      interpreter runs such a tree against an environment and records the
      remote calls. *)

From Stdlib Require Import List String Ascii Bool ZArith NArith Lia.
From Stdlib Require Import Strings.Byte Floats.SpecFloat.
From Stdlib Require DecimalString DecimalN.
Import ListNotations.

Local Open Scope list_scope.
Local Open Scope string_scope.

(** ** JavaScript values shared by the three units *)

Module Js.

(** A thrown or rejected value; [message] is what [err.message] reads
    ([None] when the value has no such property, as for DOM events). *)
Record JsError : Type := mkError { message : option string }.

Definition Error (msg : string) : JsError := mkError (Some msg).

(** Settled state of a promise. *)
Inductive Outcome (A : Type) : Type :=
| Resolved (a : A)
| Rejected (e : JsError).
Arguments Resolved {A} a.
Arguments Rejected {A} e.

(** Truthiness of a string: only the empty string is falsy. *)
Definition truthy (s : string) : bool :=
  match s with
  | EmptyString => false
  | String _ _ => true
  end.

(** [a || b] on optional strings: [undefined], [null] and [""] fall through. *)
Definition or_else (a : option string) (b : string) : string :=
  match a with
  | Some s => if truthy s then s else b
  | None => b
  end.

(** [s.startsWith(p)]. *)
Fixpoint startsWith (p s : string) : bool :=
  match p with
  | EmptyString => true
  | String a p' =>
      match s with
      | EmptyString => false
      | String b s' => if Ascii.eqb a b then startsWith p' s' else false
      end
  end.

(** [s.split(sep)] for a one-character separator: the segments between
    occurrences of [sep], in order; never the empty list. *)
Fixpoint split (sep : ascii) (s : string) : list string :=
  match s with
  | EmptyString => [EmptyString]
  | String c s' =>
      if Ascii.eqb c sep then EmptyString :: split sep s'
      else match split sep s' with
           | seg :: segs => String c seg :: segs
           | [] => [String c EmptyString]
           end
  end.

(** [arr[i]]: [undefined] out of range. *)
Definition index {A : Type} (l : list A) (i : nat) : option A := nth_error l i.

(** *** The regular expression of [handleUseResultAsInput]

    The pattern is the literal [data:], a captured greedy run of dots, and
    the literal [;base64,].

    [String.prototype.match] looks for the leftmost position where the
    pattern matches.  The dot matches any character but a line terminator
    and the star is greedy: it first takes as many characters as it can and
    gives them back one at a time until [";base64,"] follows. *)

Definition is_line_terminator (c : ascii) : bool :=
  Ascii.eqb c "010"%char || Ascii.eqb c "013"%char.

(** The capture of the greedy run followed by [;base64,], anchored at the
    start of [s]. *)
Fixpoint greedy_capture (s : string) : option string :=
  let here := if startsWith ";base64," s then Some EmptyString else None in
  match s with
  | EmptyString => here
  | String c s' =>
      if is_line_terminator c then here
      else match greedy_capture s' with
           | Some cap => Some (String c cap)
           | None => here
           end
  end.

Fixpoint drop (n : nat) (s : string) : string :=
  match n, s with
  | O, _ => s
  | S n', String _ s' => drop n' s'
  | S _, EmptyString => EmptyString
  end.

(** [s.match(pattern)?.[1]]: the first capture group of the leftmost match,
    [None] when the pattern matches nowhere. *)
Fixpoint match_data_url (s : string) : option string :=
  match s with
  | EmptyString => None
  | String _ s' =>
      if startsWith "data:" s then
        match greedy_capture (drop 5 s) with
        | Some cap => Some cap
        | None => match_data_url s'
        end
      else match_data_url s'
  end.

End Js.

(** ** Base64, as the platform's [readAsDataURL] produces it *)

Module Base64.

Definition alphabet : list ascii :=
  list_ascii_of_string
    "ABCDEFGHIJKLMNOPQRSTUVWXYZabcdefghijklmnopqrstuvwxyz0123456789+/".

Definition pad : ascii := "="%char.

Definition digit (n : N) : ascii := nth (N.to_nat n) alphabet pad.

Definition quad (a b c : N) : N := (a * 65536 + b * 256 + c)%N.

Definition sextet (k : N) (n : N) : ascii :=
  digit ((n / 64 ^ k) mod 64)%N.

Fixpoint encode (l : list byte) : string :=
  match l with
  | [] => EmptyString
  | [a] =>
      let n := quad (Byte.to_N a) 0 0 in
      String (sextet 3 n) (String (sextet 2 n) (String pad (String pad EmptyString)))
  | [a; b] =>
      let n := quad (Byte.to_N a) (Byte.to_N b) 0 in
      String (sextet 3 n) (String (sextet 2 n) (String (sextet 1 n) (String pad EmptyString)))
  | a :: b :: c :: rest =>
      let n := quad (Byte.to_N a) (Byte.to_N b) (Byte.to_N c) in
      String (sextet 3 n) (String (sextet 2 n)
        (String (sextet 1 n) (String (sextet 0 n) (encode rest))))
  end.

End Base64.

(** ** utils/fileUtils.ts, first half: [fileToImageData] *)

Module Types.

(** Modelled from the spec: [types.ts], which declares [ImageData], is not
    among the sources.  The record is the specification's EncodedImage
    (bytes, mediaType, displayReference) under the field names of the object
    literals that build it in [fileToImageData] and
    [handleUseResultAsInput].  [base64] is the result of [split(',')[1]],
    which is [undefined] without a comma. *)
Record ImageData : Type := mkImageData {
  base64 : option string;
  mimeType : string;
  url : string
}.

End Types.

Module FileReader.
Import Js.

(** The platform's [File] and [FileReader], which the code calls but does
    not define.  A [File] has its declared media type, its bytes and
    whether the platform can read it. *)
Record File : Type := mkFile {
  type : string;
  bytes : list byte;
  readable : bool
}.

(** The media type [readAsDataURL] writes: browsers substitute
    [application/octet-stream] for a file without a declared type. *)
Definition effective_type (f : File) : string :=
  if truthy (type f) then type f else "application/octet-stream".

(** [reader.readAsDataURL(file)] followed by [onload] or [onerror]. *)
Definition readAsDataURL (f : File) : Outcome string :=
  if readable f then
    Resolved ("data:" ++ effective_type f ++ ";base64," ++ Base64.encode (bytes f))
  else Rejected (mkError None).

End FileReader.

Module FileUtils.
Import Js Types FileReader.

Definition fileToImageData (file : File) : Outcome ImageData :=
  match readAsDataURL file with
  | Resolved result =>
      let url := result in
      let base64 := index (split ","%char url) 1 in
      Resolved {| base64 := base64; mimeType := type file; url := url |}
  | Rejected error => Rejected error
  end.

End FileUtils.

(** ** JavaScript numbers *)

Module Number.

Definition prec : Z := 53.
Definition emax : Z := 1024.

Definition number : Type := spec_float.

Definition mul : number -> number -> number := SFmul prec emax.
Definition sub : number -> number -> number := SFsub prec emax.
Definition div : number -> number -> number := SFdiv prec emax.

(** An integer read as a number. *)
Definition of_int (z : Z) : number := binary_normalize prec emax z 0 false.

(** An unsigned integer attribute of a DOM object read as a number. *)
Definition of_unsigned (n : N) : number := of_int (Z.of_N n).

(** The decimal literal [m / 10^k] of the source text, rounded to nearest
    even as the language reads literals; both [m] and [10^k] are exact
    here. *)
Definition literal (m : Z) (k : nat) : number :=
  div (of_int m) (of_int (10 ^ Z.of_nat k)).

Definition is_neg_zero (x : number) : bool :=
  match x with
  | S754_zero true => true
  | _ => false
  end.

(** [Math.max] and [Math.min] on two arguments: NaN is contagious and
    [-0] lies below [+0]. *)
Definition Math_max (x y : number) : number :=
  match SFcompare x y with
  | None => S754_nan
  | Some Lt => y
  | Some Gt => x
  | Some Eq => if is_neg_zero x then y else x
  end.

Definition Math_min (x y : number) : number :=
  match SFcompare x y with
  | None => S754_nan
  | Some Lt => x
  | Some Gt => y
  | Some Eq => if is_neg_zero x then x else y
  end.

End Number.

(** ** The DOM objects [addWatermark] touches *)

Module Dom.
Import Number.

(** A decoded [Image]: [width] and [height] are unsigned integers. *)
Record HTMLImageElement : Type := mkImage {
  img_src : string;
  img_width : N;
  img_height : N
}.

(** The [font] shorthand: weight, size in pixels and the family list.  The
    source interpolates the size into the shorthand's text; it is kept here
    as the number it was computed as. *)
Record Font : Type := mkFont {
  font_weight : string;
  font_size_px : number;
  font_family : list string
}.

(** Drawing state of a 2D context. *)
Record ContextState : Type := mkContextState {
  font : Font;
  fillStyle : string;
  textAlign : string;
  textBaseline : string;
  shadowColor : string;
  shadowBlur : number;
  shadowOffsetX : number;
  shadowOffsetY : number
}.

(** What has been painted, with the state it was painted under. *)
Inductive Paint : Type :=
| DrawImage (img : HTMLImageElement) (dx dy : number)
| FillText (st : ContextState) (text : string) (x y : number).

(** A canvas element with its 2D context and the paint on its surface,
    most recent last. *)
Record Canvas : Type := mkCanvas {
  width : N;
  height : N;
  ctx : ContextState;
  surface : list Paint
}.

Definition default_state : ContextState :=
  {| font := mkFont "normal" (of_int 10) ["sans-serif"];
     fillStyle := "#000000";
     textAlign := "start";
     textBaseline := "alphabetic";
     shadowColor := "rgba(0, 0, 0, 0)";
     shadowBlur := of_int 0;
     shadowOffsetX := of_int 0;
     shadowOffsetY := of_int 0 |}.

(** [document.createElement('canvas')]: 300 by 150, nothing painted. *)
Definition createCanvas : Canvas :=
  {| width := 300; height := 150; ctx := default_state; surface := [] |}.

(** Assigning a dimension resizes the surface, clears it and resets the
    context. *)
Definition set_width (c : Canvas) (w : N) : Canvas :=
  {| width := w; height := height c; ctx := default_state; surface := [] |}.

Definition set_height (c : Canvas) (h : N) : Canvas :=
  {| width := width c; height := h; ctx := default_state; surface := [] |}.

Definition with_ctx (c : Canvas) (f : ContextState -> ContextState) : Canvas :=
  {| width := width c; height := height c; ctx := f (ctx c); surface := surface c |}.

Definition paint (c : Canvas) (p : Paint) : Canvas :=
  {| width := width c; height := height c; ctx := ctx c;
     surface := (surface c ++ [p])%list |}.

Definition set_font (v : Font) (s : ContextState) : ContextState :=
  {| font := v; fillStyle := fillStyle s; textAlign := textAlign s;
     textBaseline := textBaseline s; shadowColor := shadowColor s;
     shadowBlur := shadowBlur s; shadowOffsetX := shadowOffsetX s;
     shadowOffsetY := shadowOffsetY s |}.

Definition set_fillStyle (v : string) (s : ContextState) : ContextState :=
  {| font := font s; fillStyle := v; textAlign := textAlign s;
     textBaseline := textBaseline s; shadowColor := shadowColor s;
     shadowBlur := shadowBlur s; shadowOffsetX := shadowOffsetX s;
     shadowOffsetY := shadowOffsetY s |}.

Definition set_textAlign (v : string) (s : ContextState) : ContextState :=
  {| font := font s; fillStyle := fillStyle s; textAlign := v;
     textBaseline := textBaseline s; shadowColor := shadowColor s;
     shadowBlur := shadowBlur s; shadowOffsetX := shadowOffsetX s;
     shadowOffsetY := shadowOffsetY s |}.

Definition set_textBaseline (v : string) (s : ContextState) : ContextState :=
  {| font := font s; fillStyle := fillStyle s; textAlign := textAlign s;
     textBaseline := v; shadowColor := shadowColor s;
     shadowBlur := shadowBlur s; shadowOffsetX := shadowOffsetX s;
     shadowOffsetY := shadowOffsetY s |}.

Definition set_shadowColor (v : string) (s : ContextState) : ContextState :=
  {| font := font s; fillStyle := fillStyle s; textAlign := textAlign s;
     textBaseline := textBaseline s; shadowColor := v;
     shadowBlur := shadowBlur s; shadowOffsetX := shadowOffsetX s;
     shadowOffsetY := shadowOffsetY s |}.

Definition set_shadowBlur (v : number) (s : ContextState) : ContextState :=
  {| font := font s; fillStyle := fillStyle s; textAlign := textAlign s;
     textBaseline := textBaseline s; shadowColor := shadowColor s;
     shadowBlur := v; shadowOffsetX := shadowOffsetX s;
     shadowOffsetY := shadowOffsetY s |}.

Definition set_shadowOffsetX (v : number) (s : ContextState) : ContextState :=
  {| font := font s; fillStyle := fillStyle s; textAlign := textAlign s;
     textBaseline := textBaseline s; shadowColor := shadowColor s;
     shadowBlur := shadowBlur s; shadowOffsetX := v;
     shadowOffsetY := shadowOffsetY s |}.

Definition set_shadowOffsetY (v : number) (s : ContextState) : ContextState :=
  {| font := font s; fillStyle := fillStyle s; textAlign := textAlign s;
     textBaseline := textBaseline s; shadowColor := shadowColor s;
     shadowBlur := shadowBlur s; shadowOffsetX := shadowOffsetX s;
     shadowOffsetY := v |}.

Definition drawImage (c : Canvas) (img : HTMLImageElement) (dx dy : number) : Canvas :=
  paint c (DrawImage img dx dy).

Definition fillText (c : Canvas) (text : string) (x y : number) : Canvas :=
  paint c (FillText (ctx c) text x y).

End Dom.

(** ** The request and response shapes of the generation service *)

Module Genai.

Inductive Modality : Type :=
| MODALITY_UNSPECIFIED
| TEXT
| IMAGE
| AUDIO.

(** A part of the request, as the client writes the two object literals. *)
Inductive RequestPart : Type :=
| InlineDataPart (data : option string) (mimeType : string)
| TextPart (text : string).

Record GenerateContentParameters : Type := mkRequest {
  model : string;
  contents_parts : list RequestPart;
  config_responseModalities : list Modality
}.

(** Inline bytes of a response part. *)
Record Blob : Type := mkBlob {
  data : string;
  mimeType : string
}.

Record Part : Type := mkPart {
  text : option string;
  inlineData : option Blob
}.

Record Content : Type := mkContent { parts : option (list Part) }.

Record Candidate : Type := mkCandidate { content : option Content }.

Record GenerateContentResponse : Type := mkResponse {
  candidates : option (list Candidate)
}.

End Genai.

(** ** The session state of [App] *)

Module Session.
Import Types.

Record State : Type := mkState {
  selectedImage : option ImageData;
  prompt : string;
  isLoading : bool;
  loadingMessage : string;
  error : option string;
  resultImage : option string;
  modalImageUrl : option string
}.

(** The initial values of the seven [useState] hooks. *)
Definition initial : State :=
  {| selectedImage := None; prompt := ""; isLoading := false;
     loadingMessage := ""; error := None; resultImage := None;
     modalImageUrl := None |}.

(** A call of one of the seven setters. *)
Inductive Setter : Type :=
| setSelectedImage (v : option ImageData)
| setPrompt (v : string)
| setIsLoading (v : bool)
| setLoadingMessage (v : string)
| setError (v : option string)
| setResultImage (v : option string)
| setModalImageUrl (v : option string).

Definition apply (u : Setter) (s : State) : State :=
  match u with
  | setSelectedImage v =>
      {| selectedImage := v; prompt := prompt s; isLoading := isLoading s;
         loadingMessage := loadingMessage s; error := error s;
         resultImage := resultImage s; modalImageUrl := modalImageUrl s |}
  | setPrompt v =>
      {| selectedImage := selectedImage s; prompt := v; isLoading := isLoading s;
         loadingMessage := loadingMessage s; error := error s;
         resultImage := resultImage s; modalImageUrl := modalImageUrl s |}
  | setIsLoading v =>
      {| selectedImage := selectedImage s; prompt := prompt s; isLoading := v;
         loadingMessage := loadingMessage s; error := error s;
         resultImage := resultImage s; modalImageUrl := modalImageUrl s |}
  | setLoadingMessage v =>
      {| selectedImage := selectedImage s; prompt := prompt s;
         isLoading := isLoading s; loadingMessage := v; error := error s;
         resultImage := resultImage s; modalImageUrl := modalImageUrl s |}
  | setError v =>
      {| selectedImage := selectedImage s; prompt := prompt s;
         isLoading := isLoading s; loadingMessage := loadingMessage s;
         error := v; resultImage := resultImage s;
         modalImageUrl := modalImageUrl s |}
  | setResultImage v =>
      {| selectedImage := selectedImage s; prompt := prompt s;
         isLoading := isLoading s; loadingMessage := loadingMessage s;
         error := error s; resultImage := v; modalImageUrl := modalImageUrl s |}
  | setModalImageUrl v =>
      {| selectedImage := selectedImage s; prompt := prompt s;
         isLoading := isLoading s; loadingMessage := loadingMessage s;
         error := error s; resultImage := resultImage s; modalImageUrl := v |}
  end.

End Session.

(** ** Programs that talk to the environment *)

Module Effect.
Import Js Types Dom Genai Session.

(** What a program may ask of its environment, and the type of the answer. *)
Inductive Event : Type -> Type :=
| GenerateContent (req : GenerateContentParameters)
    : Event (Outcome GenerateContentResponse)
| LoadImage (src : string) : Event (Outcome HTMLImageElement)
| GetContext2d : Event bool
| ToDataURL (c : Canvas) (type : string) : Event string
| SetState (u : Setter) : Event unit
| ConsoleError (e : JsError) : Event unit.

(** A program: it returns, throws, or asks and continues with the answer. *)
Inductive Prog (A : Type) : Type :=
| Ret (a : A)
| Throw (e : JsError)
| Vis {X : Type} (ev : Event X) (k : X -> Prog A).
Arguments Ret {A} a.
Arguments Throw {A} e.
Arguments Vis {A X} ev k.

Fixpoint bind {A B : Type} (p : Prog A) (f : A -> Prog B) : Prog B :=
  match p with
  | Ret a => f a
  | Throw e => Throw e
  | Vis ev k => Vis ev (fun x => bind (k x) f)
  end.

(** [try { p } catch (err) { h err }]. *)
Fixpoint try_catch {A : Type} (p : Prog A) (h : JsError -> Prog A) : Prog A :=
  match p with
  | Ret a => Ret a
  | Throw e => h e
  | Vis ev k => Vis ev (fun x => try_catch (k x) h)
  end.

(** [try { p } finally { f }]: [f] runs on both exits and the exit of [p]
    stands unless [f] throws. *)
Fixpoint try_finally {A : Type} (p : Prog A) (f : Prog unit) : Prog A :=
  match p with
  | Ret a => bind f (fun _ => Ret a)
  | Throw e => bind f (fun _ => Throw e)
  | Vis ev k => Vis ev (fun x => try_finally (k x) f)
  end.

Definition perform {X : Type} (ev : Event X) : Prog X := Vis ev Ret.

(** [await] of a promise the environment settles: a rejection is thrown. *)
Definition await {X : Type} (ev : Event (Outcome X)) : Prog X :=
  Vis ev (fun o =>
    match o with
    | Resolved x => Ret x
    | Rejected e => Throw e
    end).

Module Notations.
Notation "x <- p ;; q" := (bind p (fun x => q))
  (at level 61, p at next level, right associativity).
Notation "p ;; q" := (bind p (fun _ => q))
  (at level 61, right associativity).
End Notations.

(** *** Running a program *)

(** The environment: how the remote service answers, how an image source
    decodes, whether a 2D context can be had, and the PNG encoder. *)
Record Env : Type := mkEnv {
  service : GenerateContentParameters -> Outcome GenerateContentResponse;
  decode : string -> Outcome HTMLImageElement;
  context2d_available : bool;
  encode : Canvas -> string -> string
}.

(** What running leaves behind: the session state, the remote calls issued
    and the console, oldest first. *)
Record World : Type := mkWorld {
  state : State;
  calls : list GenerateContentParameters;
  console : list JsError
}.

Definition handle (env : Env) {X : Type} (ev : Event X) (w : World) : X * World :=
  match ev in Event T return T * World with
  | GenerateContent req =>
      (service env req,
       {| state := state w; calls := (calls w ++ [req])%list; console := console w |})
  | LoadImage src => (decode env src, w)
  | GetContext2d => (context2d_available env, w)
  | ToDataURL c type => (encode env c type, w)
  | SetState u =>
      (tt, {| state := apply u (state w); calls := calls w; console := console w |})
  | ConsoleError e =>
      (tt, {| state := state w; calls := calls w; console := (console w ++ [e])%list |})
  end.

Fixpoint run (env : Env) {A : Type} (p : Prog A) (w : World) : Outcome A * World :=
  match p with
  | Ret a => (Resolved a, w)
  | Throw e => (Rejected e, w)
  | Vis ev k => let (x, w') := handle env ev w in run env (k x) w'
  end.

(** A fresh world around a session state. *)
Definition world_of (s : State) : World :=
  {| state := s; calls := []; console := [] |}.

End Effect.

(** ** utils/fileUtils.ts, second half: [addWatermark] *)

Module Watermark.
Import Js Number Dom Effect Effect.Notations.

(** [Math.max(12, Math.min(img.width * 0.02, img.height * 0.03))]. *)
Definition fontSize (img : HTMLImageElement) : number :=
  Math_max (of_int 12)
    (Math_min (mul (of_unsigned (img_width img)) (literal 2 2))
              (mul (of_unsigned (img_height img)) (literal 3 2))).

(** The body of [img.onload] once the context is in hand, up to the last
    drawing call: the canvas that is then encoded. *)
Definition composite (img : HTMLImageElement) (text : string) : Canvas :=
  let canvas := createCanvas in
  let canvas := set_width canvas (img_width img) in
  let canvas := set_height canvas (img_height img) in
  let canvas := drawImage canvas img (of_int 0) (of_int 0) in
  let fontSize := fontSize img in
  let canvas :=
    with_ctx canvas (set_font (mkFont "bold" fontSize ["Segoe UI"; "Arial"; "sans-serif"])) in
  let canvas := with_ctx canvas (set_fillStyle "rgba(255, 255, 255, 0.5)") in
  let canvas := with_ctx canvas (set_textAlign "right") in
  let canvas := with_ctx canvas (set_textBaseline "bottom") in
  let canvas := with_ctx canvas (set_shadowColor "rgba(0, 0, 0, 0.5)") in
  let canvas := with_ctx canvas (set_shadowBlur (of_int 4)) in
  let canvas := with_ctx canvas (set_shadowOffsetX (of_int 0)) in
  let canvas := with_ctx canvas (set_shadowOffsetY (of_int 2)) in
  let padding := mul fontSize (literal 12 1) in
  fillText canvas text
    (sub (of_unsigned (width canvas)) padding)
    (sub (of_unsigned (height canvas)) padding).

Definition addWatermark (imageUrl text : string) : Prog string :=
  img <- await (LoadImage imageUrl) ;;
  ctx <- perform GetContext2d ;;
  if negb ctx then Throw (Error "Could not get canvas context")
  else perform (ToDataURL (composite img text) "image/png").

End Watermark.

(** ** services/geminiService.ts *)

Module GeminiService.
Import Js Types Genai Effect Effect.Notations.

(** The construction of the [GoogleGenAI] object issues no request and is
    left out; [ai.models.generateContent] is the [GenerateContent] event. *)

(** [response.candidates?.[0]?.content?.parts || []]. *)
Definition response_parts (response : GenerateContentResponse) : list Part :=
  match candidates response with
  | Some (c :: _) =>
      match content c with
      | Some ct =>
          match parts ct with
          | Some ps => ps
          | None => []
          end
      | None => []
      end
  | _ => []
  end.

(** The [for] loop over the parts and the [throw] after it. *)
Fixpoint first_image (ps : list Part) : Prog string :=
  match ps with
  | [] => Throw (Error "No image was generated. Please try a different prompt.")
  | part :: rest =>
      match inlineData part with
      | Some blob =>
          let base64ImageBytes := data blob in
          Ret ("data:" ++ Genai.mimeType blob ++ ";base64," ++ base64ImageBytes)
      | None => first_image rest
      end
  end.

Section Client.

(** [IMAGE_EDIT_MODEL] of [constants.ts], a file that is not among the
    sources: the model name is a parameter of the client. *)
Variable IMAGE_EDIT_MODEL : string.

Definition contentParts (prompt : string) (imageData : option ImageData)
  : list RequestPart :=
  let contentParts := [] in
  let contentParts :=
    match imageData with
    | Some imageData =>
        (contentParts ++ [InlineDataPart (base64 imageData) (Types.mimeType imageData)])%list
    | None => contentParts
    end in
  (contentParts ++ [TextPart prompt])%list.

(** The argument of [ai.models.generateContent]. *)
Definition request (prompt : string) (imageData : option ImageData)
  : GenerateContentParameters :=
  {| model := IMAGE_EDIT_MODEL;
     contents_parts := contentParts prompt imageData;
     config_responseModalities := [IMAGE] |}.

Definition generateOrEditImage (prompt : string) (imageData : option ImageData)
  : Prog string :=
  response <- await (GenerateContent (request prompt imageData)) ;;
  first_image (response_parts response).

End Client.

End GeminiService.

(** ** App.tsx: the handlers of the main component *)

Module App.
Import Js Types Session Effect Effect.Notations.

Section Handlers.

Variable IMAGE_EDIT_MODEL : string.

(** The values the handlers close over: the state of the render in which
    they were created. *)
Variable s : State.

Definition handleUseResultAsInput : Prog unit :=
  match resultImage s with
  | None => Ret tt
  | Some resultImage =>
      if negb (truthy resultImage) then Ret tt
      else
        let mimeType := or_else (match_data_url resultImage) "image/png" in
        let base64 := index (split ","%char resultImage) 1 in
        perform (SetState (setSelectedImage
          (Some {| base64 := base64; mimeType := mimeType; url := resultImage |}))) ;;
        perform (SetState (setResultImage None))
  end.

Definition handleRemoveImage : Prog unit :=
  perform (SetState (setSelectedImage None)) ;;
  perform (SetState (setResultImage None)) ;;
  perform (SetState (setError None)).

Definition handleSubmit : Prog unit :=
  if negb (truthy (prompt s)) then
    perform (SetState (setError (Some "Please enter a prompt.")))
  else
    perform (SetState (setIsLoading true)) ;;
    perform (SetState (setError None)) ;;
    perform (SetState (setResultImage None)) ;;
    try_finally
      (try_catch
         (let loadingMsg :=
            match selectedImage s with
            | Some _ => "Applying your creative edits..."
            | None => "Generating your vision..."
            end in
          perform (SetState (setLoadingMessage loadingMsg)) ;;
          newImage <- GeminiService.generateOrEditImage IMAGE_EDIT_MODEL
                        (prompt s) (selectedImage s) ;;
          watermarkedImage <- Watermark.addWatermark newImage "T H A R A" ;;
          perform (SetState (setResultImage (Some watermarkedImage))))
         (fun err =>
            perform (ConsoleError err) ;;
            perform (SetState (setError
              (Some (or_else (message err) "An unexpected error occurred."))))))
      (perform (SetState (setIsLoading false))).

(** The inline handlers of the markup. *)
Definition onPromptChange (value : string) : Prog unit :=
  perform (SetState (setPrompt value)).

Definition onImageUpload (imageData : ImageData) : Prog unit :=
  perform (SetState (setSelectedImage (Some imageData))).

Definition onResultClick : Prog unit :=
  perform (SetState (setModalImageUrl (resultImage s))).

Definition onModalClose : Prog unit :=
  perform (SetState (setModalImageUrl None)).

End Handlers.

(** The state a handler leaves behind when it runs to completion in the
    render of state [s]. *)
Definition after (env : Env) (handler : State -> Prog unit) (s : State) : State :=
  state (snd (run env (handler s) (world_of s))).

End App.

(** ** The specification's wording, as definitions

    Each definition below restates a sentence of the specification over the
    embedding above, to be compared with what the code does. *)

Module Spec.
Import Js Types Number Dom Genai Session Effect.

(** [c] occurs nowhere in [s]. *)
Fixpoint free_of (c : ascii) (s : string) : bool :=
  match s with
  | EmptyString => true
  | String a s' => negb (Ascii.eqb a c) && free_of c s'
  end.

(** The text that follows the first occurrence of [c] ([None] without one). *)
Fixpoint after_first (c : ascii) (s : string) : option string :=
  match s with
  | EmptyString => None
  | String a s' => if Ascii.eqb a c then Some s' else after_first c s'
  end.

(** The text of [s] up to its first [c], or all of it. *)
Fixpoint until (c : ascii) (s : string) : string :=
  match s with
  | EmptyString => EmptyString
  | String a s' => if Ascii.eqb a c then EmptyString else String a (until c s')
  end.

(** The bytes of a display reference, as the application itself takes them
    from one. *)
Definition bytes_of (displayReference : string) : option string :=
  index (split ","%char displayReference) 1.

(** The smaller and the larger of two numbers in the order of their values,
    as the specification's [min] and "the larger of" read. *)
Definition smaller (x y : number) : number := if SFltb y x then y else x.
Definition larger (x y : number) : number := if SFltb x y then y else x.

(** "take min(width*0.02, height*0.03), then take the larger of that and
    12". *)
Definition fontSize_spec (w h : N) : number :=
  let candidate :=
    smaller (mul (of_unsigned w) (literal 2 2)) (mul (of_unsigned h) (literal 3 2)) in
  larger candidate (of_int 12).

(** A number that is not NaN and whose sign bit is clear. *)
Definition sign_clear (x : number) : Prop :=
  match x with
  | S754_zero false | S754_infinity false | S754_finite false _ _ => True
  | _ => False
  end.

(** The "no image produced" condition. *)
Definition no_image_produced : JsError :=
  Error "No image was generated. Please try a different prompt.".

(** A part without inline image bytes. *)
Definition text_only (p : Part) : Prop := inlineData p = None.

(** "it never returns an empty-bytes success". *)
Definition never_empty_success
    (model : string) (env : Env) (prompt : string) (seed : option ImageData) : Prop :=
  forall displayReference,
    fst (run env (GeminiService.generateOrEditImage model prompt seed)
           (world_of initial)) = Resolved displayReference ->
    exists b, bytes_of displayReference = Some b /\ b <> "".

(** "all fields reset to empty". *)
Definition all_fields_empty (s : State) : Prop :=
  selectedImage s = None /\ prompt s = "" /\ isLoading s = false
  /\ loadingMessage s = "" /\ error s = None /\ resultImage s = None
  /\ modalImageUrl s = None.

(** The fields other than [selectedImage] that hold a display reference. *)
Definition still_refers_to (s : State) (displayReference : string) : Prop :=
  resultImage s = Some displayReference \/ modalImageUrl s = Some displayReference.

(** "promoting resultImage into inputImage then clearing resultImage must
    leave promptText untouched and must not retain any reference to the
    prior resultImage value", for any non-null [resultImage]. *)
Definition promotes_and_forgets (env : Env) (s : State) : Prop :=
  forall r, resultImage s = Some r ->
  let s' := App.after env App.handleUseResultAsInput s in
  (exists img, selectedImage s' = Some img /\ url img = r)
  /\ resultImage s' = None
  /\ prompt s' = prompt s
  /\ ~ still_refers_to s' r.

(** Synthesis followed by watermarking, as [handleSubmit] chains them. *)
Definition pipeline (model : string) (s : State) : Prog string :=
  bind (GeminiService.generateOrEditImage model (prompt s) (selectedImage s))
       (fun newImage => Watermark.addWatermark newImage "T H A R A").

(** What the user is told while waiting. *)
Definition busy_message (s : State) : string :=
  match selectedImage s with
  | Some _ => "Applying your creative edits..."
  | None => "Generating your vision..."
  end.

(** The bytes of the seed image of a state, when there is one. *)
Definition base64_of (s : State) : option (option string) :=
  option_map base64 (selectedImage s).

(** The promotion of a string that is no base64 data URL, with the bytes
    read as everything after the first comma. *)
Definition promotes_with_tail (env : Env) (s : State) : Prop :=
  forall r, resultImage s = Some r ->
  match_data_url r = None ->
  selectedImage (App.after env App.handleUseResultAsInput s)
  = Some (mkImageData (after_first ","%char r) "image/png" r).

End Spec.

(** ** Environments and states used as concrete instances *)

Module Fixture.
Import Js Types Dom Genai Session Effect.

Definition png_part (bytes : string) : Part :=
  {| text := None; inlineData := Some (mkBlob bytes "image/png") |}.

Definition text_part (t : string) : Part :=
  {| text := Some t; inlineData := None |}.

Definition response_of (ps : list Part) : GenerateContentResponse :=
  {| candidates := Some [ {| content := Some {| parts := Some ps |} |} ] |}.

(** A browser that decodes every source to a 1000 by 500 bitmap, grants a
    context and encodes every canvas to the same PNG, around a service that
    always answers [ps]. *)
Definition answering (ps : list Part) : Env :=
  {| service := fun _ => Resolved (response_of ps);
     decode := fun src => Resolved (mkImage src 1000 500);
     context2d_available := true;
     encode := fun _ _ => "data:image/png;base64,iVBORw0KGgo=" |}.

(** The service answers with one PNG. *)
Definition studio : Env := answering [png_part "AAAA"].

(** The same browser around a service that is down. *)
Definition offline : Env :=
  {| service := fun _ => Rejected (Error "Failed to fetch");
     decode := fun src => Resolved (mkImage src 1000 500);
     context2d_available := true;
     encode := fun _ _ => "data:image/png;base64,iVBORw0KGgo=" |}.

Definition balloon : State :=
  {| selectedImage := None; prompt := "a red balloon"; isLoading := false;
     loadingMessage := ""; error := None; resultImage := None;
     modalImageUrl := None |}.

Definition watermarked : string := "data:image/png;base64,iVBORw0KGgo=".

(** After a successful submission the user has opened the viewer on the
    result. *)
Definition viewing : State :=
  {| selectedImage := None; prompt := "a red balloon"; isLoading := false;
     loadingMessage := "Generating your vision..."; error := None;
     resultImage := Some watermarked; modalImageUrl := Some watermarked |}.

(** A session whose result is [r], everything else as at the start. *)
Definition with_result (r : string) : State :=
  {| selectedImage := None; prompt := "a red balloon"; isLoading := false;
     loadingMessage := "Generating your vision..."; error := None;
     resultImage := Some r; modalImageUrl := None |}.

(** A seed image is shown, a prompt is typed and an earlier attempt failed. *)
Definition editing : State :=
  {| selectedImage := Some (mkImageData (Some "TWFu") "image/png" "data:image/png;base64,TWFu");
     prompt := "make it blue"; isLoading := false;
     loadingMessage := "Applying your creative edits...";
     error := Some "No image was generated. Please try a different prompt.";
     resultImage := None; modalImageUrl := None |}.

Definition png_file : FileReader.File :=
  {| FileReader.type := "image/png";
     FileReader.bytes := ["M"%byte; "a"%byte; "n"%byte];
     FileReader.readable := true |}.

End Fixture.

(** ** App.tsx: the [ImageUploader] component *)

Module Uploader.
Import Js Types FileReader Effect Effect.Notations.

(** [await] of a promise whose settlement is already known. *)
Definition settled {A : Type} (o : Outcome A) : Prog A :=
  match o with
  | Resolved a => Ret a
  | Rejected e => Throw e
  end.

Section Props.

(** The [onImageUpload] prop. *)
Variable onImageUpload : ImageData -> Prog unit.

(** The [try] block shared by the two handlers.  [console.error] is passed
    a fixed label before the error; the console of the world keeps the
    error. *)
Definition convert (file : File) : Prog unit :=
  try_catch
    (imageData <- settled (FileUtils.fileToImageData file) ;;
     onImageUpload imageData)
    (fun error => perform (ConsoleError error)).

(** [files] is [event.target.files], which may be [null]. *)
Definition handleFileChange (files : option (list File)) : Prog unit :=
  let file := match files with Some fs => index fs 0 | None => None end in
  match file with
  | Some file => convert file
  | None => Ret tt
  end.

(** [files] is [event.dataTransfer.files]. *)
Definition handleDrop (files : option (list File)) : Prog unit :=
  let file := match files with Some fs => index fs 0 | None => None end in
  match file with
  | Some file =>
      if startsWith "image/" (type file) then convert file else Ret tt
  | None => Ret tt
  end.

End Props.

End Uploader.

(** ** App.tsx: what the markup shows, and [handleDownload] *)

Module View.
Import Js Types Session.

(** [!prompt || isLoading]. *)
Definition isSubmitDisabled (s : State) : bool :=
  negb (truthy (prompt s)) || isLoading s.

(** [selectedImage?.url || null]. *)
Definition imagePreviewUrl (s : State) : option string :=
  match selectedImage s with
  | Some img => if truthy (url img) then Some (url img) else None
  | None => None
  end.

(** Truthiness of a [string | null]. *)
Definition present (v : option string) : bool :=
  match v with
  | Some t => truthy t
  | None => false
  end.

(** The remove button is drawn inside the preview branch of the uploader. *)
Definition removeButtonShown (s : State) : bool := present (imagePreviewUrl s).

(** The result pane shows the loader while busy, else the result with its
    Refine and Download buttons when there is one. *)
Definition resultShown (s : State) : bool :=
  negb (isLoading s) && present (resultImage s).

Definition textareaDisabled (s : State) : bool := isLoading s.

Definition errorBannerShown (s : State) : bool := present (error s).

Definition modalShown (s : State) : bool := present (modalImageUrl s).

(** What [handleDownload] hands to the anchor it clicks. *)
Record Download : Type := mkDownload {
  href : string;
  download : string
}.

(** The decimal text of an integer number, as a template literal prints
    [Date.now()]; numbers print this way below [10^21], far above any
    time value. *)
Definition decimal (n : N) : string :=
  DecimalString.NilZero.string_of_uint (N.to_uint n).

(** [handleDownload], with [now] the value of [Date.now()]; [None] when it
    returns before touching the document. *)
Definition handleDownload (s : State) (now : N) : option Download :=
  match resultImage s with
  | None => None
  | Some resultImage =>
      if negb (truthy resultImage) then None
      else
        let fileName := "generated-image-by-thara-" ++ decimal now ++ ".png" in
        Some {| href := resultImage; download := fileName |}
  end.

End View.

(** ** The page as a machine: user events and settling promises

    A handler runs until its first [await]; what remains waits for the
    environment.  Between the two, other handlers may run.  The two upload
    handlers finish within their action: the embedding has the file read as
    a function, and what follows the read only calls a setter that does not
    depend on the render.  The actions offered are those the markup renders
    enabled; an open viewer, which in the browser covers the other controls,
    is not taken to block them. *)

Module Machine.
Import Js Types FileReader Genai Session Effect.

(** The events that suspend a handler. *)
Definition suspends {X : Type} (ev : Event X) : bool :=
  match ev with
  | GenerateContent _ => true
  | LoadImage _ => true
  | _ => false
  end.

(** A handler stopped at an [await]. *)
Inductive Task : Type :=
| Waiting {X : Type} (ev : Event X) (k : X -> Prog unit).

(** The environment's answer to an event. *)
Definition answer (env : Env) {X : Type} (ev : Event X) : X :=
  match ev in Event T return T with
  | GenerateContent req => service env req
  | LoadImage src => decode env src
  | GetContext2d => context2d_available env
  | ToDataURL c type => encode env c type
  | SetState _ => tt
  | ConsoleError _ => tt
  end.

(** Run to the first [await] (the request leaves at once) or to the end. *)
Fixpoint advance (env : Env) (p : Prog unit) (w : World)
  : World * (Outcome unit + Task) :=
  match p with
  | Ret a => (w, inl (Resolved a))
  | Throw e => (w, inl (Rejected e))
  | Vis ev k =>
      let (x, w') := handle env ev w in
      if suspends ev then (w', inr (Waiting ev k))
      else advance env (k x) w'
  end.

(** The promise a task waits for settles, and the task runs on. *)
Definition resume (env : Env) (t : Task) (w : World)
  : World * (Outcome unit + Task) :=
  match t with
  | Waiting ev k => advance env (k (answer env ev)) w
  end.

(** A task resumed and then run to its end in one go. *)
Definition run_task (env : Env) (t : Task) (w : World) : Outcome unit * World :=
  match t with
  | Waiting ev k => run env (k (answer env ev)) w
  end.

(** What the user can do. *)
Inductive Action : Type :=
| TypePrompt (value : string)
| PickFile (files : option (list File))
| DropFile (files : option (list File))
| ClickRemove
| ClickRefine
| ClickDownload
| ClickResult
| CloseModal
| ClickSubmit.

(** Whether the markup of state [s] offers the action. *)
Definition offered (s : State) (a : Action) : bool :=
  match a with
  | TypePrompt _ => negb (View.textareaDisabled s)
  | PickFile _ => true
  | DropFile _ => true
  | ClickRemove => View.removeButtonShown s
  | ClickRefine => View.resultShown s
  | ClickDownload => View.resultShown s
  | ClickResult => View.resultShown s
  | CloseModal => View.modalShown s
  | ClickSubmit => negb (View.isSubmitDisabled s)
  end.

(** The handler the markup of state [s] binds to the action.
    [handleDownload] sets no state and is left to [View.handleDownload]. *)
Definition handler (model : string) (s : State) (a : Action) : Prog unit :=
  match a with
  | TypePrompt value => App.onPromptChange value
  | PickFile files => Uploader.handleFileChange App.onImageUpload files
  | DropFile files => Uploader.handleDrop App.onImageUpload files
  | ClickRemove => App.handleRemoveImage
  | ClickRefine => App.handleUseResultAsInput s
  | ClickDownload => Ret tt
  | ClickResult => App.onResultClick s
  | CloseModal => App.onModalClose
  | ClickSubmit => App.handleSubmit model s
  end.

(** The page: the world and the handlers that wait. *)
Record Page : Type := mkPage {
  world : World;
  waiting : list Task
}.

Definition start : Page :=
  {| world := world_of initial; waiting := [] |}.

Definition park (r : World * (Outcome unit + Task)) (rest : list Task) : Page :=
  match r with
  | (w, inl _) => {| world := w; waiting := rest |}
  | (w, inr t) => {| world := w; waiting := (rest ++ [t])%list |}
  end.

(** One step of the page: an offered action runs its handler to its first
    [await], or a waiting handler is resumed. *)
Inductive step (env : Env) (model : string) : Page -> Page -> Prop :=
| step_act (pg : Page) (a : Action) :
    offered (state (world pg)) a = true ->
    step env model pg
      (park (advance env (handler model (state (world pg)) a) (world pg))
            (waiting pg))
| step_resume (pg : Page) (before after : list Task) (t : Task) :
    waiting pg = (before ++ t :: after)%list ->
    step env model pg
      (park (resume env t (world pg)) (before ++ after)%list).

Inductive reachable (env : Env) (model : string) : Page -> Prop :=
| reach_start : reachable env model start
| reach_step (pg pg' : Page) :
    reachable env model pg -> step env model pg pg' -> reachable env model pg'.

End Machine.

(** ** Further environments, states and files *)

Module Scenario.
Import Js Types Dom Genai Session Effect Fixture.

(** The first candidate only talks; the second one carries an image. *)
Definition second_candidate_has_image : Env :=
  {| service := fun _ =>
       Resolved {| candidates :=
         Some [ {| content := Some {| parts := Some [text_part "no"] |} |};
                {| content := Some {| parts := Some [png_part "AAAA"] |} |} ] |};
     decode := fun src => Resolved (mkImage src 1000 500);
     context2d_available := true;
     encode := fun _ _ => watermarked |}.

(** The service answers with an image the browser cannot decode; the
    [error] event of an image has no [message]. *)
Definition undecodable : Env :=
  {| service := fun _ => Resolved (response_of [png_part "AAAA"]);
     decode := fun _ => Rejected (mkError None);
     context2d_available := true;
     encode := fun _ _ => watermarked |}.

(** No 2D context is to be had. *)
Definition without_context : Env :=
  {| service := fun _ => Resolved (response_of [png_part "AAAA"]);
     decode := fun src => Resolved (mkImage src 1000 500);
     context2d_available := false;
     encode := fun _ _ => watermarked |}.

Definition text_file : FileReader.File :=
  {| FileReader.type := "text/plain";
     FileReader.bytes := ["M"%byte; "a"%byte; "n"%byte];
     FileReader.readable := true |}.

Definition broken_file : FileReader.File :=
  {| FileReader.type := "image/png";
     FileReader.bytes := [];
     FileReader.readable := false |}.

(** A result is on show and nothing is running. *)
Definition showing : State := with_result watermarked.

End Scenario.

(** ** Shapes of strings used in statements *)

Module Shape.
Import Js.

(** No line terminator occurs in [s]. *)
Fixpoint line_free (s : string) : bool :=
  match s with
  | EmptyString => true
  | String a s' => negb (is_line_terminator a) && line_free s'
  end.

(** A base64 data URL. *)
Definition data_url (mediaType payload : string) : string :=
  "data:" ++ mediaType ++ ";base64," ++ payload.

End Shape.

(** ** What holds of every page *)

Module Invariant.
Import Js Types Dom Session Effect Machine.

(** A submission is under way: the loader is up and neither a result nor an
    error is on show. *)
Definition busy (s : State) : Prop :=
  isLoading s = true /\ resultImage s = None /\ error s = None.

(** Nothing is under way: at most one of result and error is on show, and a
    result is the encoding of a watermarked canvas. *)
Definition idle (env : Env) (s : State) : Prop :=
  isLoading s = false
  /\ (resultImage s = None \/ error s = None)
  /\ (forall r, resultImage s = Some r ->
        exists img, r = encode env (Watermark.composite img "T H A R A") "image/png").

(** A waiting handler that, resumed in a busy state, either finishes in an
    idle one or waits once more, at most [n] more times, the state still
    busy. *)
Fixpoint finishes_within (env : Env) (n : nat) (t : Task) : Prop :=
  forall w, busy (state w) ->
    (exists w', resume env t w = (w', inl (Resolved tt)) /\ idle env (state w'))
    \/ match n with
       | O => False
       | S n' =>
           exists w' t', resume env t w = (w', inr t')
                         /\ busy (state w')
                         /\ finishes_within env n' t'
       end.

(** At most one handler waits, and only while the page is busy. *)
Definition holds (env : Env) (pg : Page) : Prop :=
  match waiting pg with
  | [] => idle env (state (world pg))
  | [t] => busy (state (world pg)) /\ finishes_within env 1 t
  | _ => False
  end.

End Invariant.

(** ** A walk through the page *)

Module Tour.
Import Js Types Session Effect Machine Fixture.

(** The page after an action, and after the oldest waiting handler is
    resumed. *)
Definition act (env : Env) (model : string) (pg : Page) (a : Action) : Page :=
  park (advance env (handler model (state (world pg)) a) (world pg)) (waiting pg).

Definition settle (env : Env) (pg : Page) : Page :=
  match waiting pg with
  | t :: rest => park (resume env t (world pg)) rest
  | [] => pg
  end.

(** Type a prompt, submit, let the service answer, let the image decode. *)
Definition typed : Page := act studio "model" start (TypePrompt "a red balloon").
Definition submitted : Page := act studio "model" typed ClickSubmit.
Definition answered : Page := settle studio submitted.
Definition finished : Page := settle studio answered.

End Tour.

(** * Properties *)

(** ** Strings *)

Section StringFacts.
Import Js Spec.

Variable c : ascii.

Lemma app_assoc_string (a b d : string) : (a ++ b) ++ d = a ++ (b ++ d).
Proof. induction a as [|x a IH]; simpl; [reflexivity | now rewrite IH]. Qed.

Lemma free_of_app (a b : string) :
  free_of c (a ++ b) = free_of c a && free_of c b.
Proof.
  induction a as [|x a IH]; simpl; [reflexivity|].
  rewrite IH. now rewrite andb_assoc.
Qed.

Lemma until_free (s : string) : free_of c s = true -> until c s = s.
Proof.
  induction s as [|a s IH]; simpl; [reflexivity|].
  intros H. apply andb_prop in H as [Ha Hs].
  apply negb_true_iff in Ha. rewrite Ha. now rewrite IH.
Qed.

Lemma after_first_app (a b : string) :
  free_of c a = true -> after_first c (a ++ String c b) = Some b.
Proof.
  induction a as [|x a IH]; simpl.
  - intros _. now rewrite Ascii.eqb_refl.
  - intros H. apply andb_prop in H as [Hx Ha].
    apply negb_true_iff in Hx. rewrite Hx. now apply IH.
Qed.

Lemma after_first_free (s : string) : free_of c s = true -> after_first c s = None.
Proof.
  induction s as [|a s IH]; simpl; [reflexivity|].
  intros H. apply andb_prop in H as [Ha Hs].
  apply negb_true_iff in Ha. rewrite Ha. now apply IH.
Qed.

(** [split] peels the text before the first separator and goes on after
    it. *)
Lemma split_unfold (s : string) :
  split c s
  = until c s :: match after_first c s with
                 | Some rest => split c rest
                 | None => []
                 end.
Proof.
  induction s as [|a s IH]; simpl; [reflexivity|].
  destruct (Ascii.eqb a c); [reflexivity|].
  now rewrite IH.
Qed.

(** Element 1 of a split: the segment between the first separator and the
    next one (or the end); [undefined] without a separator. *)
Lemma split_index_1 (s : string) :
  index (split c s) 1 = option_map (until c) (after_first c s).
Proof.
  rewrite split_unfold. unfold index. simpl.
  destruct (after_first c s) as [rest|]; simpl; [|reflexivity].
  now rewrite split_unfold.
Qed.

End StringFacts.

Example split_examples :
  Js.split ","%char "a,b,c" = ["a"; "b"; "c"]
  /\ Js.split ","%char "" = [""]
  /\ Js.split ","%char "abc" = ["abc"]
  /\ Js.split ","%char "a," = ["a"; ""].
Proof. repeat split; reflexivity. Qed.

(** The pattern is searched for, not anchored; the capture is greedy and may
    be empty. *)
Example match_data_url_examples :
  Js.match_data_url "data:image/png;base64,AAAA" = Some "image/png"
  /\ Js.match_data_url "xdata:a;base64,data:b;base64,c" = Some "a;base64,data:b"
  /\ Js.match_data_url "data:;base64,AAAA" = Some ""
  /\ Js.match_data_url "data:image/png;utf8,AAAA" = None
  /\ Js.match_data_url "" = None.
Proof. repeat split; reflexivity. Qed.

Example base64_examples :
  Base64.encode ["M"%byte; "a"%byte; "n"%byte] = "TWFu"
  /\ Base64.encode ["M"%byte; "a"%byte] = "TWE="
  /\ Base64.encode ["M"%byte] = "TQ=="
  /\ Base64.encode [] = "".
Proof. repeat split; reflexivity. Qed.

(** ** Base64 text never contains a comma *)

Section Base64Facts.
Import Js Base64 Spec.

Lemma digit_not_comma (n : N) : Ascii.eqb (digit n) ","%char = false.
Proof.
  unfold digit.
  assert (H : forallb (fun a => negb (Ascii.eqb a ","%char)) alphabet = true)
    by reflexivity.
  rewrite forallb_forall in H.
  destruct (nth_in_or_default (N.to_nat n) alphabet pad) as [Hin | Hd].
  - apply negb_true_iff. now apply H.
  - rewrite Hd. reflexivity.
Qed.

Lemma encode_step (a b d : byte) (rest : list byte) :
  encode (a :: b :: d :: rest)
  = (let n := quad (Byte.to_N a) (Byte.to_N b) (Byte.to_N d) in
     String (sextet 3 n) (String (sextet 2 n)
       (String (sextet 1 n) (String (sextet 0 n) (encode rest))))).
Proof. reflexivity. Qed.

Lemma encode_free_of_comma (l : list byte) : free_of ","%char (encode l) = true.
Proof.
  enough (H : free_of ","%char (encode l) = true
              /\ (forall a, free_of ","%char (encode (a :: l)) = true)
              /\ (forall a b, free_of ","%char (encode (a :: b :: l)) = true))
    by apply H.
  induction l as [|x l (IH0 & IH1 & IH2)].
  - repeat split; intros; cbn [encode free_of]; unfold sextet;
      rewrite ?digit_not_comma; reflexivity.
  - split; [apply IH1 | split; [intro a; apply IH2 |]].
    intros a b. rewrite encode_step. cbv zeta. cbn [free_of]. unfold sextet.
    rewrite !digit_not_comma. exact IH0.
Qed.

End Base64Facts.

(** ** Image acquisition *)

Section Acquisition.
Import Js Types FileReader FileUtils Spec.

(** The payload of a base64 data URL is element 1 of its split at commas,
    provided neither the media type nor the payload has a comma. *)
Lemma data_url_payload (ty payload : string) :
  free_of ","%char ty = true ->
  free_of ","%char payload = true ->
  index (split ","%char ("data:" ++ ty ++ ";base64," ++ payload)) 1 = Some payload.
Proof.
  intros Hty Hp.
  assert (E : "data:" ++ ty ++ ";base64," ++ payload
              = ("data:" ++ ty ++ ";base64") ++ String ","%char payload).
  { rewrite !app_assoc_string. reflexivity. }
  rewrite E, split_index_1, after_first_app.
  - simpl. now rewrite until_free.
  - rewrite !free_of_app, Hty. reflexivity.
Qed.

(** C2.  For every readable file whose declared media type is present and
    free of commas (every registered image type is), [fileToImageData]
    resolves with an image whose [mimeType] is the declared type, whose
    [base64] is the base64 text of the file's bytes, and whose [url] is
    exactly ["data:" + mimeType + ";base64," + base64]. *)
Theorem fileToImageData_displayReference (file : File) :
  readable file = true ->
  truthy (type file) = true ->
  free_of ","%char (type file) = true ->
  exists img payload,
    fileToImageData file = Resolved img
    /\ mimeType img = type file
    /\ base64 img = Some payload
    /\ payload = Base64.encode (bytes file)
    /\ url img = "data:" ++ mimeType img ++ ";base64," ++ payload.
Proof.
  intros Hread Hty Hfree.
  unfold fileToImageData, readAsDataURL, effective_type.
  rewrite Hread, Hty.
  eexists. exists (Base64.encode (bytes file)).
  split; [reflexivity|]. cbn [mimeType base64 url].
  repeat split.
  apply data_url_payload; [exact Hfree | apply encode_free_of_comma].
Qed.

Lemma fileToImageData_displayReference_witness :
  exists img payload,
    fileToImageData Fixture.png_file = Resolved img
    /\ mimeType img = "image/png"
    /\ base64 img = Some payload
    /\ payload = "TWFu"
    /\ url img = "data:" ++ mimeType img ++ ";base64," ++ payload.
Proof.
  exact (fileToImageData_displayReference Fixture.png_file
           eq_refl eq_refl eq_refl).
Defined.

(** Where the hypothesis on the declared type matters: with a comma in it
    the second segment of the split is no longer the payload. *)
Example fileToImageData_comma_in_type :
  fileToImageData (mkFile "image/png,x" ["M"%byte; "a"%byte; "n"%byte] true)
  = Resolved (mkImageData (Some "x;base64") "image/png,x"
                          "data:image/png,x;base64,TWFu").
Proof. reflexivity. Qed.

(** A file the platform cannot read rejects. *)
Example fileToImageData_unreadable (ty : string) (bs : list byte) :
  fileToImageData (mkFile ty bs false) = Rejected (mkError None).
Proof. reflexivity. Qed.

End Acquisition.

(** ** The synthesis client *)

Section Synthesis.
Import Js Types Genai Effect GeminiService Spec.

Variable model : string.

(** The scan passes over parts without inline data. *)
Lemma first_image_skip (pre rest : list Part) :
  Forall text_only pre -> first_image (pre ++ rest)%list = first_image rest.
Proof.
  induction 1 as [|p pre Hp _ IH]; simpl; [reflexivity|].
  unfold text_only in Hp. now rewrite Hp.
Qed.

Lemma first_image_none (ps : list Part) :
  Forall text_only ps -> first_image ps = Throw no_image_produced.
Proof.
  intros H. rewrite <- (app_nil_r ps). now rewrite first_image_skip.
Qed.

(** The scan makes no request: it returns or throws on the spot. *)
Lemma first_image_settles (ps : list Part) :
  (exists pre part blob post,
      ps = (pre ++ part :: post)%list /\ Forall text_only pre
      /\ inlineData part = Some blob
      /\ first_image ps
         = Ret ("data:" ++ Genai.mimeType blob ++ ";base64," ++ data blob))
  \/ (Forall text_only ps /\ first_image ps = Throw no_image_produced).
Proof.
  induction ps as [|p ps IH].
  - right. split; [constructor | reflexivity].
  - destruct (inlineData p) as [blob|] eqn:Hp.
    + left. exists [], p, blob, ps. simpl. rewrite Hp. repeat split. constructor.
    + destruct IH as [(pre & part & blob & post & E & Hpre & Hpart & Hret) | [Hall Hthrow]].
      * left. exists (p :: pre), part, blob, post. simpl. rewrite Hp.
        repeat split; try assumption.
        -- now rewrite E.
        -- constructor; assumption.
      * right. split; [constructor; assumption|]. simpl. now rewrite Hp.
Qed.

(** Running the client: one logged call, then the scan of the answer. *)
Lemma run_generateOrEditImage (env : Env) (prompt : string)
    (seed : option ImageData) (w : World) :
  run env (generateOrEditImage model prompt seed) w
  = let w' := {| state := state w;
                 calls := (calls w ++ [request model prompt seed])%list;
                 console := console w |} in
    match service env (request model prompt seed) with
    | Resolved response => run env (first_image (response_parts response)) w'
    | Rejected e => (Rejected e, w')
    end.
Proof.
  unfold generateOrEditImage, await. simpl.
  destruct (service env (request model prompt seed)); reflexivity.
Qed.

Lemma run_first_image (env : Env) (ps : list Part) (w : World) :
  snd (run env (first_image ps) w) = w.
Proof.
  destruct (first_image_settles ps) as [(? & ? & ? & ? & _ & _ & _ & E) | [_ E]];
    rewrite E; reflexivity.
Qed.

(** C1.  Whatever response the service gives, the client returns the data
    URL of the first part that has inline data, built from that part's
    media type and bytes, and when no part has inline data it fails with
    the message "No image was generated. Please try a different prompt.". *)
Theorem generateOrEditImage_first_inline_part
    (env : Env) (prompt : string) (seed : option ImageData) (w : World)
    (response : GenerateContentResponse) :
  service env (request model prompt seed) = Resolved response ->
  (forall pre part blob post,
      response_parts response = (pre ++ part :: post)%list ->
      Forall text_only pre ->
      inlineData part = Some blob ->
      fst (run env (generateOrEditImage model prompt seed) w)
      = Resolved ("data:" ++ Genai.mimeType blob ++ ";base64," ++ data blob))
  /\ (Forall text_only (response_parts response) ->
      fst (run env (generateOrEditImage model prompt seed) w)
      = Rejected (Error "No image was generated. Please try a different prompt.")).
Proof.
  intros Hservice. rewrite run_generateOrEditImage. cbv zeta. rewrite Hservice.
  split.
  - intros pre part blob post E Hpre Hpart.
    rewrite E, first_image_skip by assumption.
    simpl. now rewrite Hpart.
  - intros Hall. now rewrite first_image_none.
Qed.

(** C8.  Every invocation logs exactly one remote call, and its request
    holds the seed image's bytes and media type first when there is a seed,
    then the prompt text, under a configuration that asks for image output
    only. *)
Theorem generateOrEditImage_single_request
    (env : Env) (prompt : string) (seed : option ImageData) (w : World) :
  calls (snd (run env (generateOrEditImage model prompt seed) w))
  = (calls w
     ++ [ {| Genai.model := model;
             contents_parts :=
               (match seed with
                | Some img => [InlineDataPart (base64 img) (Types.mimeType img)]
                | None => []
                end ++ [TextPart prompt])%list;
             config_responseModalities := [IMAGE] |} ])%list.
Proof.
  rewrite run_generateOrEditImage. cbv zeta.
  destruct (service env (request model prompt seed)) as [response | e].
  - rewrite run_first_image. simpl. unfold request, contentParts.
    destruct seed; reflexivity.
  - simpl. unfold request, contentParts. destruct seed; reflexivity.
Qed.

(** C3, as the code has it.  The client either fails or returns the data URL
    of the first response part that has inline data; it makes no check of
    its own on the bytes.  When that part's media type and data are free of
    commas, as image media types and base64 text are, the bytes of the
    returned reference are the part's data verbatim, so they are empty
    exactly when the service sent empty data. *)
Theorem generateOrEditImage_success_shape
    (env : Env) (prompt : string) (seed : option ImageData) (w : World)
    (displayReference : string) :
  fst (run env (generateOrEditImage model prompt seed) w) = Resolved displayReference ->
  exists response pre part blob post,
    service env (request model prompt seed) = Resolved response
    /\ response_parts response = (pre ++ part :: post)%list
    /\ Forall text_only pre
    /\ inlineData part = Some blob
    /\ displayReference = "data:" ++ Genai.mimeType blob ++ ";base64," ++ data blob
    /\ (free_of ","%char (Genai.mimeType blob) = true ->
        free_of ","%char (data blob) = true ->
        bytes_of displayReference = Some (data blob)).
Proof.
  rewrite run_generateOrEditImage. cbv zeta.
  destruct (service env (request model prompt seed)) as [response | e];
    [|discriminate].
  destruct (first_image_settles (response_parts response))
    as [(pre & part & blob & post & E & Hpre & Hpart & Hret) | [_ Hthrow]].
  - rewrite Hret. simpl. intros [= <-].
    exists response, pre, part, blob, post. repeat split; try assumption.
    intros Hm Hd. now apply data_url_payload.
  - rewrite Hthrow. discriminate.
Qed.

(** X7.  A rejection of the remote call reaches the caller unchanged. *)
Lemma generateOrEditImage_propagates
    (env : Env) (prompt : string) (seed : option ImageData) (w : World)
    (e : JsError) :
  service env (request model prompt seed) = Rejected e ->
  fst (run env (generateOrEditImage model prompt seed) w) = Rejected e.
Proof.
  intros H. rewrite run_generateOrEditImage. cbv zeta. now rewrite H.
Qed.

End Synthesis.

Section SynthesisInstances.
Import Js Types Genai Session Effect GeminiService Spec Fixture.

Lemma generateOrEditImage_first_inline_part_witness :
  fst (run (answering [text_part "Here you go"; png_part "AAAA"; png_part "BBBB"])
         (generateOrEditImage "model" "a red balloon" None) (world_of balloon))
  = Resolved "data:image/png;base64,AAAA".
Proof.
  refine (proj1 (generateOrEditImage_first_inline_part "model"
                   (answering [text_part "Here you go"; png_part "AAAA"; png_part "BBBB"])
                   "a red balloon" None (world_of balloon) _ eq_refl)
                [text_part "Here you go"] (png_part "AAAA") (mkBlob "AAAA" "image/png")
                [png_part "BBBB"] eq_refl _ eq_refl).
  constructor; [reflexivity | constructor].
Defined.

(** A text-only answer ends in the failure. *)
Example generateOrEditImage_text_only :
  fst (run (answering [text_part "I cannot draw that."])
         (generateOrEditImage "model" "a red balloon" None) (world_of balloon))
  = Rejected (Error "No image was generated. Please try a different prompt.").
Proof. reflexivity. Qed.

(** C3 fails as stated: an inline part with empty data is returned as a
    success whose bytes are the empty string. *)
Lemma generateOrEditImage_empty_bytes_success :
  fst (run (answering [png_part ""])
         (generateOrEditImage "model" "a red balloon" None) (world_of initial))
  = Resolved "data:image/png;base64,"
  /\ bytes_of "data:image/png;base64," = Some ""
  /\ ~ never_empty_success "model" (answering [png_part ""]) "a red balloon" None.
Proof.
  split; [reflexivity | split; [reflexivity|]].
  intros H. destruct (H "data:image/png;base64," eq_refl) as (b & Hb & Hne).
  vm_compute in Hb. injection Hb as <-. now apply Hne.
Qed.

Lemma generateOrEditImage_success_shape_witness :
  exists response pre part blob post,
    service (answering [png_part ""]) (request "model" "a red balloon" None)
    = Resolved response
    /\ response_parts response = (pre ++ part :: post)%list
    /\ Forall text_only pre
    /\ inlineData part = Some blob
    /\ "data:image/png;base64," = "data:" ++ Genai.mimeType blob ++ ";base64," ++ data blob
    /\ (free_of ","%char (Genai.mimeType blob) = true ->
        free_of ","%char (data blob) = true ->
        bytes_of "data:image/png;base64," = Some (data blob)).
Proof.
  exact (generateOrEditImage_success_shape "model" (answering [png_part ""])
           "a red balloon" None (world_of initial) "data:image/png;base64," eq_refl).
Defined.

End SynthesisInstances.

(** ** The handlers of the session *)

Section Handlers.
Import Js Types Session Effect App Spec.

Variable env : Env.

(** What the three setters of [handleRemoveImage] leave behind. *)
Lemma run_handleRemoveImage (w : World) :
  run env handleRemoveImage w
  = (Resolved tt,
     {| state :=
          {| selectedImage := None; prompt := prompt (state w);
             isLoading := isLoading (state w);
             loadingMessage := loadingMessage (state w); error := None;
             resultImage := None; modalImageUrl := modalImageUrl (state w) |};
        calls := calls w; console := console w |}).
Proof. reflexivity. Qed.

(** C4, as the code has it.  The "remove image" action clears the seed
    image, the result and the error, and nothing else: the prompt, the busy
    flag, the busy message and the viewer keep their values. *)
Theorem handleRemoveImage_clears_three (s : State) :
  after env (fun _ => handleRemoveImage) s
  = {| selectedImage := None; prompt := prompt s; isLoading := isLoading s;
       loadingMessage := loadingMessage s; error := None;
       resultImage := None; modalImageUrl := modalImageUrl s |}.
Proof. unfold after. now rewrite run_handleRemoveImage. Qed.

(** The promotion, for a result that is present and not the empty string. *)
Lemma run_handleUseResultAsInput (s : State) (r : string) (w : World) :
  resultImage s = Some r ->
  truthy r = true ->
  run env (handleUseResultAsInput s) w
  = (Resolved tt,
     {| state :=
          {| selectedImage :=
               Some (mkImageData (index (split ","%char r) 1)
                                 (or_else (match_data_url r) "image/png") r);
             prompt := prompt (state w); isLoading := isLoading (state w);
             loadingMessage := loadingMessage (state w); error := error (state w);
             resultImage := None; modalImageUrl := modalImageUrl (state w) |};
        calls := calls w; console := console w |}).
Proof.
  intros Hr Ht. unfold handleUseResultAsInput. rewrite Hr, Ht. reflexivity.
Qed.

(** Without a result, or with the empty string for one, nothing happens. *)
Lemma run_handleUseResultAsInput_falsy (s : State) (w : World) :
  resultImage s = None \/ resultImage s = Some "" ->
  run env (handleUseResultAsInput s) w = (Resolved tt, w).
Proof.
  intros [H | H]; unfold handleUseResultAsInput; rewrite H; reflexivity.
Qed.

(** C5, as the code has it.  For a result [r] that is not the empty string,
    the promotion sets the seed image to the image parsed from [r] with [r]
    itself as its [url], clears [resultImage], and leaves the prompt, the
    busy flag, the busy message, the error and the viewer as they were. *)
Theorem handleUseResultAsInput_promotes (s : State) (r : string) :
  resultImage s = Some r ->
  truthy r = true ->
  after env handleUseResultAsInput s
  = {| selectedImage :=
         Some (mkImageData (index (split ","%char r) 1)
                           (or_else (match_data_url r) "image/png") r);
       prompt := prompt s; isLoading := isLoading s;
       loadingMessage := loadingMessage s; error := error s;
       resultImage := None; modalImageUrl := modalImageUrl s |}.
Proof.
  intros Hr Ht. unfold after.
  now rewrite (run_handleUseResultAsInput s r (world_of s) Hr Ht).
Qed.

(** C10, as the code has it.  A non-empty result that the data URL pattern
    does not match is still promoted: the media type falls back to
    [image/png], the bytes are the text between the first comma and the
    next comma or the end ([undefined] without a comma), the [url] is the
    result itself, and [resultImage] is cleared. *)
Theorem handleUseResultAsInput_fallback (s : State) (r : string) :
  resultImage s = Some r ->
  truthy r = true ->
  match_data_url r = None ->
  selectedImage (after env handleUseResultAsInput s)
  = Some (mkImageData (option_map (until ","%char) (after_first ","%char r))
                      "image/png" r)
  /\ resultImage (after env handleUseResultAsInput s) = None.
Proof.
  intros Hr Ht Hm. unfold after.
  rewrite (run_handleUseResultAsInput s r (world_of s) Hr Ht).
  cbn [snd state selectedImage resultImage].
  now rewrite Hm, split_index_1.
Qed.

Variable model : string.

(** C9.  With an empty prompt, [handleSubmit] is the single setter call that
    shows "Please enter a prompt.": no remote call is logged, nothing is
    written to the console, and the busy flag, like every field but the
    error, keeps its value. *)
Theorem handleSubmit_empty_prompt (s : State) :
  prompt s = "" ->
  handleSubmit model s
  = perform (SetState (setError (Some "Please enter a prompt.")))
  /\ run env (handleSubmit model s) (world_of s)
     = (Resolved tt,
        {| state :=
             {| selectedImage := selectedImage s; prompt := prompt s;
                isLoading := isLoading s; loadingMessage := loadingMessage s;
                error := Some "Please enter a prompt.";
                resultImage := resultImage s;
                modalImageUrl := modalImageUrl s |};
           calls := []; console := [] |}).
Proof.
  intros Hp.
  assert (E : handleSubmit model s
              = perform (SetState (setError (Some "Please enter a prompt.")))).
  { unfold handleSubmit. rewrite Hp. reflexivity. }
  split; [exact E | rewrite E; reflexivity].
Qed.

End Handlers.

Section HandlerInstances.
Import Js Types Session Effect App Spec Fixture.

(** A submission that succeeds, one that gets a text-only answer, and one
    whose remote call is rejected. *)
Example handleSubmit_success :
  run studio (handleSubmit "model" balloon) (world_of balloon)
  = (Resolved tt,
     {| state :=
          {| selectedImage := None; prompt := "a red balloon"; isLoading := false;
             loadingMessage := "Generating your vision..."; error := None;
             resultImage := Some watermarked; modalImageUrl := None |};
        calls := [ {| Genai.model := "model";
                      Genai.contents_parts := [Genai.TextPart "a red balloon"];
                      Genai.config_responseModalities := [Genai.IMAGE] |} ];
        console := [] |}).
Proof. vm_compute. reflexivity. Qed.

Example handleSubmit_text_only :
  after (answering [text_part "I cannot draw that."]) (handleSubmit "model") balloon
  = {| selectedImage := None; prompt := "a red balloon"; isLoading := false;
       loadingMessage := "Generating your vision...";
       error := Some "No image was generated. Please try a different prompt.";
       resultImage := None; modalImageUrl := None |}.
Proof. vm_compute. reflexivity. Qed.

Example handleSubmit_offline :
  after offline (handleSubmit "model") balloon
  = {| selectedImage := None; prompt := "a red balloon"; isLoading := false;
       loadingMessage := "Generating your vision...";
       error := Some "Failed to fetch";
       resultImage := None; modalImageUrl := None |}.
Proof. vm_compute. reflexivity. Qed.

(** The state [viewing] is reached from the initial one by typing a prompt,
    submitting it and clicking the result. *)
Example viewing_reachable :
  after studio onResultClick
    (after studio (handleSubmit "model")
       (after studio (fun _ => onPromptChange "a red balloon") initial))
  = viewing.
Proof. vm_compute. reflexivity. Qed.

(** C4 fails as stated: the prompt and the busy message survive the
    "remove image" action. *)
Lemma handleRemoveImage_keeps_prompt :
  after studio (fun _ => handleRemoveImage) editing
  = {| selectedImage := None; prompt := "make it blue"; isLoading := false;
       loadingMessage := "Applying your creative edits..."; error := None;
       resultImage := None; modalImageUrl := None |}
  /\ ~ all_fields_empty (after studio (fun _ => handleRemoveImage) editing).
Proof.
  split; [reflexivity|].
  intros (_ & Hprompt & _). discriminate Hprompt.
Qed.

Lemma handleUseResultAsInput_promotes_witness :
  after studio handleUseResultAsInput (with_result watermarked)
  = {| selectedImage :=
         Some (mkImageData (Some "iVBORw0KGgo=") "image/png" watermarked);
       prompt := "a red balloon"; isLoading := false;
       loadingMessage := "Generating your vision..."; error := None;
       resultImage := None; modalImageUrl := None |}.
Proof.
  exact (handleUseResultAsInput_promotes studio (with_result watermarked) watermarked
           eq_refl eq_refl).
Defined.

(** C5 fails as stated, twice over: the viewer goes on holding the promoted
    value when it was showing it, and a result that is the empty string is
    non-null yet not promoted at all. *)
Lemma handleUseResultAsInput_viewer_retains :
  modalImageUrl (after studio handleUseResultAsInput viewing) = Some watermarked
  /\ ~ promotes_and_forgets studio viewing
  /\ after studio handleUseResultAsInput (with_result "") = with_result ""
  /\ ~ promotes_and_forgets studio (with_result "").
Proof.
  split; [reflexivity|]. split; [|split; [reflexivity|]].
  - intros H. destruct (H watermarked eq_refl) as (_ & _ & _ & Hforgets).
    apply Hforgets. right. reflexivity.
  - intros H. destruct (H "" eq_refl) as ((img & Himg & _) & _).
    discriminate Himg.
Qed.

Lemma handleUseResultAsInput_fallback_witness :
  selectedImage (after studio handleUseResultAsInput (with_result "data:image/png,x,y"))
  = Some (mkImageData (Some "x") "image/png" "data:image/png,x,y")
  /\ resultImage (after studio handleUseResultAsInput (with_result "data:image/png,x,y"))
     = None.
Proof.
  exact (handleUseResultAsInput_fallback studio (with_result "data:image/png,x,y")
           "data:image/png,x,y" eq_refl eq_refl eq_refl).
Defined.

(** C10 fails as stated: with a second comma the bytes stop there instead
    of running to the end, and the empty string, which the pattern does not
    match either, is not promoted. *)
Lemma handleUseResultAsInput_second_comma :
  match_data_url "data:image/png,x,y" = None
  /\ base64_of (after studio handleUseResultAsInput (with_result "data:image/png,x,y"))
     = Some (Some "x")
  /\ after_first ","%char "data:image/png,x,y" = Some "x,y"
  /\ ~ promotes_with_tail studio (with_result "data:image/png,x,y")
  /\ ~ promotes_with_tail studio (with_result "").
Proof.
  repeat split; try reflexivity.
  - intros H. specialize (H "data:image/png,x,y" eq_refl eq_refl).
    vm_compute in H. discriminate H.
  - intros H. specialize (H "" eq_refl eq_refl).
    vm_compute in H. discriminate H.
Qed.

Lemma handleSubmit_empty_prompt_witness :
  handleSubmit "model" initial
  = perform (SetState (setError (Some "Please enter a prompt.")))
  /\ run studio (handleSubmit "model" initial) (world_of initial)
     = (Resolved tt,
        {| state :=
             {| selectedImage := None; prompt := ""; isLoading := false;
                loadingMessage := ""; error := Some "Please enter a prompt.";
                resultImage := None; modalImageUrl := None |};
           calls := []; console := [] |}).
Proof.
  exact (handleSubmit_empty_prompt studio "model" initial eq_refl).
Defined.

End HandlerInstances.

(** ** Numbers: rounding keeps the sign, and the order is total off NaN *)

Section NumberFacts.
Import Number Spec.

Local Open Scope Z_scope.

Lemma shr_1_nonneg (mrs : shr_record) : 0 <= shr_m mrs -> 0 <= shr_m (shr_1 mrs).
Proof.
  destruct mrs as [m r s]. destruct m as [|[p|p|]|[p|p|]]; simpl; lia.
Qed.

Lemma iter_shr_1_nonneg (p : positive) :
  forall mrs, 0 <= shr_m mrs -> 0 <= shr_m (iter_pos shr_1 p mrs).
Proof.
  induction p as [p IH | p IH |]; intros mrs H; simpl.
  - apply IH, IH, shr_1_nonneg, H.
  - apply IH, IH, H.
  - apply shr_1_nonneg, H.
Qed.

Lemma shr_fexp_nonneg (m e : Z) (l : location) :
  0 <= m -> 0 <= shr_m (fst (shr_fexp prec emax m e l)).
Proof.
  intros H. unfold shr_fexp, shr.
  assert (H0 : 0 <= shr_m (shr_record_of_loc m l))
    by (destruct l as [|[]]; exact H).
  destruct (fexp prec emax (Zdigits2 m + e) - e); simpl;
    [exact H0 | now apply iter_shr_1_nonneg | exact H0].
Qed.

Lemma round_nearest_even_nonneg (m : Z) (l : location) :
  0 <= m -> 0 <= round_nearest_even m l.
Proof.
  intros H. destruct l as [|[]]; simpl; try destruct (Z.even m); lia.
Qed.

(** Rounding a non-negative mantissa under a clear sign bit never yields
    NaN or a set sign bit. *)
Lemma binary_round_aux_sign_clear (m e : Z) (l : location) :
  0 <= m -> sign_clear (binary_round_aux prec emax false m e l).
Proof.
  intros H. unfold binary_round_aux.
  pose proof (shr_fexp_nonneg m e l H) as H1.
  destruct (shr_fexp prec emax m e l) as [mrs' e']. simpl in H1.
  pose proof (shr_fexp_nonneg _ e' loc_Exact
                (round_nearest_even_nonneg _ (loc_of_shr_record mrs') H1)) as H2.
  destruct (shr_fexp prec emax _ e' loc_Exact) as [mrs'' e'']. simpl in H2.
  destruct (shr_m mrs'') as [|q|q]; simpl.
  - exact I.
  - destruct (e'' <=? _); exact I.
  - lia.
Qed.

Lemma of_unsigned_sign_clear (n : N) : sign_clear (of_unsigned n).
Proof.
  unfold of_unsigned, of_int, binary_normalize.
  destruct n as [|p]; simpl; [exact I|].
  unfold binary_round.
  destruct (shl_align p 0 _) as [mz ez].
  apply binary_round_aux_sign_clear. lia.
Qed.

Lemma mul_sign_clear (x : number) (m : positive) (e : Z) :
  sign_clear x -> sign_clear (mul x (S754_finite false m e)).
Proof.
  destruct x as [[]|[]| |[] mx ex]; simpl; try contradiction; intros _;
    try exact I.
  apply binary_round_aux_sign_clear. lia.
Qed.

(** Two such numbers always compare, the comparison reverses with its
    arguments, and [Eq] means the very same number. *)
Lemma compare_sign_clear (x y : number) :
  sign_clear x -> sign_clear y ->
  exists c, SFcompare x y = Some c
            /\ SFcompare y x = Some (CompOpp c)
            /\ (c = Eq -> x = y).
Proof.
  destruct x as [[]|[]| |[] mx ex]; simpl; try contradiction; intros _;
    destruct y as [[]|[]| |[] my ey]; simpl; try contradiction; intros _;
    try (eexists; repeat split; try reflexivity; discriminate).
  eexists. split; [reflexivity|]. split.
  - rewrite (Z.compare_antisym ex ey).
    destruct (ex ?= ey); simpl; try reflexivity.
    now rewrite (Pos.compare_cont_antisym mx my Eq).
  - destruct (ex ?= ey) eqn:He; try discriminate.
    intros Hm. apply Z.compare_eq in He.
    apply Pos.compare_eq in Hm. now subst.
Qed.

Lemma Math_min_is_smaller (x y : number) :
  sign_clear x -> sign_clear y ->
  Math_min x y = smaller x y /\ sign_clear (smaller x y).
Proof.
  intros Hx Hy.
  destruct (compare_sign_clear x y Hx Hy) as (c & Hxy & Hyx & Heq).
  unfold Math_min, smaller, SFltb. rewrite Hxy, Hyx.
  destruct c; simpl.
  - rewrite <- (Heq eq_refl). split; [|exact Hx].
    destruct x as [[]| | |]; reflexivity.
  - split; [reflexivity | exact Hx].
  - split; [reflexivity | exact Hy].
Qed.

Lemma Math_max_is_larger (x y : number) :
  sign_clear x -> sign_clear y -> Math_max x y = larger y x.
Proof.
  intros Hx Hy.
  destruct (compare_sign_clear x y Hx Hy) as (c & Hxy & Hyx & Heq).
  unfold Math_max, larger, SFltb. rewrite Hxy, Hyx.
  destruct c; simpl; try reflexivity.
  rewrite <- (Heq eq_refl).
  destruct x as [[]| | |]; reflexivity.
Qed.

(** The literals of [addWatermark], as binary64 values. *)
Lemma literal_0_02 : literal 2 2 = S754_finite false 5764607523034235 (-58).
Proof. vm_compute. reflexivity. Qed.

Lemma literal_0_03 : literal 3 2 = S754_finite false 8646911284551352 (-58).
Proof. vm_compute. reflexivity. Qed.

Lemma literal_1_2 : literal 12 1 = S754_finite false 5404319552844595 (-52).
Proof. vm_compute. reflexivity. Qed.

End NumberFacts.

(** ** Watermarking *)

Section Watermarking.
Import Js Number Dom Effect Watermark Spec.

(** The two candidates are never NaN and never negative. *)
Lemma candidates_sign_clear (n : N) :
  sign_clear (mul (of_unsigned n) (literal 2 2))
  /\ sign_clear (mul (of_unsigned n) (literal 3 2)).
Proof.
  rewrite literal_0_02, literal_0_03.
  split; apply mul_sign_clear, of_unsigned_sign_clear.
Qed.

(** On image dimensions [Math.max] and [Math.min] meet none of their special
    cases: the code computes the plain larger-of and smaller-of. *)
Lemma fontSize_refines (img : HTMLImageElement) :
  fontSize img = fontSize_spec (img_width img) (img_height img).
Proof.
  unfold fontSize, fontSize_spec.
  destruct (candidates_sign_clear (img_width img)) as [Ha _].
  destruct (candidates_sign_clear (img_height img)) as [_ Hb].
  destruct (Math_min_is_smaller _ _ Ha Hb) as [-> Hmin].
  apply Math_max_is_larger; [exact I | exact Hmin].
Qed.

(** C6.  For every image width and height the font size is the larger of
    12 and the smaller of [width * 0.02] and [height * 0.03], the products
    being binary64 products; 1000 by 500 gives 15 and 100 by 100 gives
    12. *)
Theorem fontSize_formula (img : HTMLImageElement) :
  fontSize img = fontSize_spec (img_width img) (img_height img)
  /\ fontSize (mkImage (img_src img) 1000 500) = of_int 15
  /\ fontSize (mkImage (img_src img) 100 100) = of_int 12.
Proof.
  split; [apply fontSize_refines | split; vm_compute; reflexivity].
Qed.

(** X9.  The floor: the font size is never below 12. *)
Lemma fontSize_at_least_12 (img : HTMLImageElement) :
  SFleb (of_int 12) (fontSize img) = true.
Proof.
  rewrite fontSize_refines.
  unfold fontSize_spec. cbv zeta.
  set (c := smaller _ _).
  assert (Hc : sign_clear c).
  { subst c. apply Math_min_is_smaller; apply candidates_sign_clear. }
  destruct (compare_sign_clear c (of_int 12) Hc I) as (k & Hk & Hk' & _).
  unfold larger, SFltb. rewrite Hk.
  destruct k; cbv iota; try (unfold SFleb; rewrite Hk'; reflexivity).
  vm_compute. reflexivity.
Qed.

(** The intermediate values of the specification's two worked examples. *)
Example fontSize_candidates :
  mul (of_unsigned 1000) (literal 2 2) = of_int 20
  /\ mul (of_unsigned 500) (literal 3 2) = of_int 15
  /\ mul (of_unsigned 100) (literal 2 2) = of_int 2
  /\ mul (of_unsigned 100) (literal 3 2) = of_int 3.
Proof. repeat split; vm_compute; reflexivity. Qed.

(** What [addWatermark] paints: the bitmap at the origin, then the label. *)
Lemma composite_surface (img : HTMLImageElement) (text : string) :
  exists st x y,
    surface (composite img text)
    = [DrawImage img (of_int 0) (of_int 0); FillText st text x y]
    /\ font_size_px (font st) = fontSize img
    /\ x = sub (of_unsigned (img_width img)) (mul (fontSize img) (literal 12 1))
    /\ y = sub (of_unsigned (img_height img)) (mul (fontSize img) (literal 12 1)).
Proof. do 3 eexists. repeat split. Qed.

(** C7.  For every source that decodes, with a 2D context to be had, the
    canvas that [addWatermark] encodes has the width and the height of the
    decoded bitmap. *)
Theorem addWatermark_keeps_dimensions
    (env : Env) (imageUrl text : string) (img : HTMLImageElement) (w : World) :
  decode env imageUrl = Resolved img ->
  context2d_available env = true ->
  run env (addWatermark imageUrl text) w
  = (Resolved (encode env (composite img text) "image/png"), w)
  /\ width (composite img text) = img_width img
  /\ height (composite img text) = img_height img.
Proof.
  intros Hdecode Hctx. unfold addWatermark, await, perform. simpl.
  rewrite Hdecode. simpl. rewrite Hctx. simpl.
  repeat split.
Qed.

Lemma addWatermark_keeps_dimensions_witness :
  run Fixture.studio (addWatermark "data:image/png;base64,AAAA" "T H A R A")
      (world_of Session.initial)
  = (Resolved Fixture.watermarked, world_of Session.initial)
  /\ width (composite (mkImage "data:image/png;base64,AAAA" 1000 500) "T H A R A")
     = 1000%N
  /\ height (composite (mkImage "data:image/png;base64,AAAA" 1000 500) "T H A R A")
     = 500%N.
Proof.
  exact (addWatermark_keeps_dimensions Fixture.studio
           "data:image/png;base64,AAAA" "T H A R A"
           (mkImage "data:image/png;base64,AAAA" 1000 500)
           (world_of Session.initial) eq_refl eq_refl).
Defined.

(** The two ways [addWatermark] fails. *)
Lemma addWatermark_failures
    (env : Env) (imageUrl text : string) (w : World) :
  (forall e, decode env imageUrl = Rejected e ->
             run env (addWatermark imageUrl text) w = (Rejected e, w))
  /\ (forall img, decode env imageUrl = Resolved img ->
                  context2d_available env = false ->
                  run env (addWatermark imageUrl text) w
                  = (Rejected (Error "Could not get canvas context"), w)).
Proof.
  split.
  - intros e H. unfold addWatermark, await. simpl. now rewrite H.
  - intros img H Hc. unfold addWatermark, await, perform. simpl.
    rewrite H. simpl. now rewrite Hc.
Qed.

End Watermarking.

(** ** The submission pipeline as a whole *)

Section Submission.
Import Js Types Genai Session Effect App Spec.

Variable env : Env.

(** The environment's answers do not depend on the world: neither does the
    outcome of a program. *)
Lemma run_outcome_world {A : Type} (p : Prog A) :
  forall w w', fst (run env p w) = fst (run env p w').
Proof.
  induction p as [a | e | X ev k IH]; intros w w'; simpl; try reflexivity.
  destruct ev; simpl; apply IH.
Qed.

Lemma run_bind {A B : Type} (p : Prog A) (f : A -> Prog B) (w : World) :
  run env (bind p f) w
  = match run env p w with
    | (Resolved a, w') => run env (f a) w'
    | (Rejected e, w') => (Rejected e, w')
    end.
Proof.
  revert w. induction p as [a | e | X ev k IH]; intros w; simpl; try reflexivity.
  destruct (handle env ev w) as [x w']. apply IH.
Qed.

Lemma run_try_catch {A : Type} (p : Prog A) (h : JsError -> Prog A) (w : World) :
  run env (try_catch p h) w
  = match run env p w with
    | (Resolved a, w') => (Resolved a, w')
    | (Rejected e, w') => run env (h e) w'
    end.
Proof.
  revert w. induction p as [a | e | X ev k IH]; intros w; simpl; try reflexivity.
  destruct (handle env ev w) as [x w']. apply IH.
Qed.

Lemma run_try_finally {A : Type} (p : Prog A) (f : Prog unit) (w : World) :
  run env (try_finally p f) w
  = match run env p w with
    | (Resolved a, w') =>
        match run env f w' with
        | (Resolved _, w'') => (Resolved a, w'')
        | (Rejected e, w'') => (Rejected e, w'')
        end
    | (Rejected e, w') =>
        match run env f w' with
        | (Resolved _, w'') => (Rejected e, w'')
        | (Rejected e', w'') => (Rejected e', w'')
        end
    end.
Proof.
  revert w. induction p as [a | e | X ev k IH]; intros w; simpl.
  - rewrite run_bind. destruct (run env f w) as [[[]|e] w']; reflexivity.
  - rewrite run_bind. destruct (run env f w) as [[[]|e'] w']; reflexivity.
  - destruct (handle env ev w) as [x w']. apply IH.
Qed.

(** [addWatermark] leaves the world as it found it. *)
Lemma run_addWatermark_world (imageUrl text : string) (w : World) :
  snd (run env (Watermark.addWatermark imageUrl text) w) = w.
Proof.
  unfold Watermark.addWatermark, await, perform. simpl.
  destruct (decode env imageUrl); [|reflexivity].
  simpl. destruct (context2d_available env); reflexivity.
Qed.

Variable model : string.

(** The pipeline issues the one remote call and touches neither the session
    state nor the console. *)
Lemma run_pipeline (s : State) (w : World) :
  snd (run env (pipeline model s) w)
  = {| state := state w;
       calls := (calls w
                 ++ [GeminiService.request model (prompt s) (selectedImage s)])%list;
       console := console w |}.
Proof.
  unfold pipeline. rewrite run_bind.
  pose proof (run_generateOrEditImage model env (prompt s) (selectedImage s) w) as E.
  cbv zeta in E.
  destruct (service env _) as [response | e].
  - pose proof (run_first_image env (GeminiService.response_parts response)) as E'.
    rewrite E.
    match goal with |- context [run env (GeminiService.first_image ?ps) ?w0] =>
      specialize (E' w0); destruct (run env (GeminiService.first_image ps) w0) as [[u|e] w1]
    end; simpl in E'; subst w1; [apply run_addWatermark_world | reflexivity].
  - rewrite E. reflexivity.
Qed.

(** Every submission with a prompt settles, with the busy flag down, in one
    of two states: the watermarked result with no error, or an error with
    no result.  The message is the failure's own when it has one. *)
Theorem handleSubmit_outcomes (s : State) :
  truthy (prompt s) = true ->
  after env (handleSubmit model) s
  = match fst (run env (pipeline model s) (world_of s)) with
    | Resolved watermarkedImage =>
        {| selectedImage := selectedImage s; prompt := prompt s;
           isLoading := false; loadingMessage := busy_message s;
           error := None; resultImage := Some watermarkedImage;
           modalImageUrl := modalImageUrl s |}
    | Rejected err =>
        {| selectedImage := selectedImage s; prompt := prompt s;
           isLoading := false; loadingMessage := busy_message s;
           error := Some (or_else (message err) "An unexpected error occurred.");
           resultImage := None; modalImageUrl := modalImageUrl s |}
    end.
Proof.
  intros Hp. unfold after, handleSubmit. rewrite Hp. cbn [negb].
  unfold perform. cbn [bind run handle].
  rewrite run_try_finally, run_try_catch. cbn [run handle].
  match goal with |- context [run env (bind _ _) ?w] => set (w1 := w) end.
  assert (Hs1 : state w1
                = {| selectedImage := selectedImage s; prompt := prompt s;
                     isLoading := true; loadingMessage := busy_message s;
                     error := None; resultImage := None;
                     modalImageUrl := modalImageUrl s |}) by reflexivity.
  assert (Hc1 : calls w1 = []) by reflexivity.
  assert (Hk1 : console w1 = []) by reflexivity.
  clearbody w1.
  rewrite (run_outcome_world (pipeline model s) (world_of s) w1).
  pose proof (run_pipeline s w1) as Hw.
  unfold pipeline in *. rewrite run_bind in Hw. rewrite !run_bind.
  destruct (run env (GeminiService.generateOrEditImage model (prompt s) (selectedImage s)) w1)
    as [[newImage | e] w2].
  - rewrite run_bind.
    destruct (run env (Watermark.addWatermark newImage "T H A R A") w2) as [[wm | e] w3];
      simpl in Hw; subst w3; simpl; rewrite Hs1; reflexivity.
  - simpl in Hw. subst w2. simpl. rewrite Hs1. reflexivity.
Qed.

End Submission.

(** ** More on the synthesis client: what a response may lack *)

Section ResponseShapes.
Import Js Types Genai Effect GeminiService Spec.

Variable model : string.
Variable env : Env.

(** X6.  The client reads the parts of the first candidate and of no other: a
    response without candidates, with an empty candidate list, or whose
    first candidate lacks content, parts or any inline data fails with the
    "no image" error, whatever the later candidates hold. *)
Theorem generateOrEditImage_first_candidate_only
    (prompt : string) (seed : option ImageData) (w : World)
    (response : GenerateContentResponse) :
  service env (request model prompt seed) = Resolved response ->
  (candidates response = None
   \/ candidates response = Some []
   \/ exists c others,
        candidates response = Some (c :: others)
        /\ (content c = None
            \/ content c = Some (mkContent None)
            \/ exists ps, content c = Some (mkContent (Some ps))
                          /\ Forall text_only ps)) ->
  fst (run env (generateOrEditImage model prompt seed) w)
  = Rejected (Error "No image was generated. Please try a different prompt.").
Proof.
  intros Hservice Hshape.
  rewrite run_generateOrEditImage. cbv zeta. rewrite Hservice.
  assert (Hall : Forall text_only (response_parts response)).
  { unfold response_parts.
    destruct Hshape as [-> | [-> | (c & others & -> & Hc)]];
      try constructor.
    destruct Hc as [-> | [-> | (ps & -> & Hps)]]; try constructor.
    exact Hps. }
  now rewrite first_image_none.
Qed.

End ResponseShapes.

Section ResponseShapeInstances.
Import Js Types Genai Session Effect GeminiService Spec Fixture.

Lemma generateOrEditImage_first_candidate_only_witness :
  fst (run Scenario.second_candidate_has_image
         (generateOrEditImage "model" "a red balloon" None) (world_of balloon))
  = Rejected (Error "No image was generated. Please try a different prompt.").
Proof.
  refine (generateOrEditImage_first_candidate_only "model"
            Scenario.second_candidate_has_image "a red balloon" None
            (world_of balloon) _ eq_refl _).
  right. right. eexists. eexists. split; [reflexivity|].
  right. right. eexists. split; [reflexivity|].
  constructor; [reflexivity | constructor].
Defined.

Lemma generateOrEditImage_propagates_witness :
  fst (run offline (generateOrEditImage "model" "a red balloon" None)
         (world_of balloon))
  = Rejected (Error "Failed to fetch").
Proof.
  exact (generateOrEditImage_propagates "model" offline "a red balloon" None
           (world_of balloon) (Error "Failed to fetch") eq_refl).
Defined.

End ResponseShapeInstances.

(** ** More on the submission: the call, the console and each way to fail *)

Section SubmissionDetails.
Import Js Types Genai Dom Session Effect App Spec.

Variable env : Env.
Variable model : string.

(** The outcome of the pipeline, read off the environment's answers. *)
Lemma pipeline_outcome (s : State) (w : World) :
  fst (run env (pipeline model s) w)
  = match service env (GeminiService.request model (prompt s) (selectedImage s)) with
    | Rejected e => Rejected e
    | Resolved response =>
        match fst (run env (GeminiService.first_image
                              (GeminiService.response_parts response)) w) with
        | Rejected e => Rejected e
        | Resolved newImage =>
            match decode env newImage with
            | Rejected e => Rejected e
            | Resolved img =>
                if context2d_available env
                then Resolved (encode env (Watermark.composite img "T H A R A") "image/png")
                else Rejected (Error "Could not get canvas context")
            end
        end
    end.
Proof.
  unfold pipeline. rewrite run_bind, run_generateOrEditImage. cbv zeta.
  destruct (service env _) as [response | e]; [|reflexivity].
  rewrite (run_outcome_world env (GeminiService.first_image _) w
             {| state := state w;
                calls := (calls w ++ [GeminiService.request model (prompt s) (selectedImage s)])%list;
                console := console w |}).
  destruct (run env (GeminiService.first_image _) _) as [[newImage | e] w']; simpl;
    [|reflexivity].
  unfold Watermark.addWatermark, await, perform. simpl.
  destruct (decode env newImage) as [img | e]; simpl; [|reflexivity].
  destruct (context2d_available env); reflexivity.
Qed.

(** The outcome, the calls and the console of a submission with a prompt. *)
Lemma run_handleSubmit_log (s : State) :
  truthy (prompt s) = true ->
  fst (run env (handleSubmit model s) (world_of s)) = Resolved tt
  /\ calls (snd (run env (handleSubmit model s) (world_of s)))
     = [GeminiService.request model (prompt s) (selectedImage s)]
  /\ console (snd (run env (handleSubmit model s) (world_of s)))
     = match fst (run env (pipeline model s) (world_of s)) with
       | Resolved _ => []
       | Rejected err => [err]
       end.
Proof.
  intros Hp. unfold handleSubmit. rewrite Hp. cbn [negb].
  unfold perform. cbn [bind run handle].
  rewrite run_try_finally, run_try_catch. cbn [run handle].
  match goal with |- context [run env (bind _ _) ?w] => set (w1 := w) end.
  assert (Hc1 : calls w1 = []) by reflexivity.
  assert (Hk1 : console w1 = []) by reflexivity.
  clearbody w1.
  rewrite (run_outcome_world env (pipeline model s) (world_of s) w1).
  pose proof (run_pipeline env model s w1) as Hw.
  unfold pipeline in *. rewrite run_bind in Hw. rewrite !run_bind.
  destruct (run env (GeminiService.generateOrEditImage model (prompt s) (selectedImage s)) w1)
    as [[newImage | e] w2].
  - rewrite run_bind.
    destruct (run env (Watermark.addWatermark newImage "T H A R A") w2) as [[wm | e] w3];
      simpl in Hw; subst w3; simpl; rewrite Hc1, Hk1; repeat split.
  - simpl in Hw. subst w2. simpl. rewrite Hc1, Hk1. repeat split.
Qed.

(** X2.  With a prompt, [handleSubmit] always resolves; it has issued exactly one
    remote call, built from the prompt and the seed image of its render, and
    the console holds the failure, once, when there was one. *)
Theorem handleSubmit_one_call_one_log (s : State) :
  truthy (prompt s) = true ->
  fst (run env (handleSubmit model s) (world_of s)) = Resolved tt
  /\ calls (snd (run env (handleSubmit model s) (world_of s)))
     = [GeminiService.request model (prompt s) (selectedImage s)]
  /\ console (snd (run env (handleSubmit model s) (world_of s)))
     = match fst (run env (pipeline model s) (world_of s)) with
       | Resolved _ => []
       | Rejected err => [err]
       end.
Proof. exact (run_handleSubmit_log s). Qed.

(** [a || b] with a non-empty [b] is never empty. *)
Lemma or_else_truthy (a : option string) (b : string) :
  truthy b = true -> truthy (or_else a b) = true.
Proof.
  intros Hb. destruct a as [[|c a]|]; simpl; try exact Hb. reflexivity.
Qed.

(** X1.  A submission with a prompt ends with the busy flag down and exactly one
    of the two: a result and no error, or a non-empty error message and no
    result.  The seed image, the prompt and the viewer are as before. *)
Theorem handleSubmit_result_or_error (s : State) :
  truthy (prompt s) = true ->
  let s' := after env (handleSubmit model) s in
  isLoading s' = false
  /\ selectedImage s' = selectedImage s
  /\ prompt s' = prompt s
  /\ modalImageUrl s' = modalImageUrl s
  /\ ((exists watermarkedImage,
         resultImage s' = Some watermarkedImage /\ error s' = None)
      \/ (exists msg,
            error s' = Some msg /\ truthy msg = true /\ resultImage s' = None)).
Proof.
  intros Hp. cbv zeta. rewrite (handleSubmit_outcomes env model s Hp).
  destruct (fst (run env (pipeline model s) (world_of s))) as [wm | err];
    cbn [isLoading selectedImage prompt modalImageUrl resultImage error];
    repeat split.
  - left. exists wm. split; reflexivity.
  - right. eexists. split; [reflexivity | split; [|reflexivity]].
    now apply or_else_truthy.
Qed.

(** X3.  A text-only answer, or one with no parts at all, ends the submission
    with the "no image" message, no result and the busy flag down. *)
Theorem handleSubmit_no_image (s : State) (response : GenerateContentResponse) :
  truthy (prompt s) = true ->
  service env (GeminiService.request model (prompt s) (selectedImage s))
  = Resolved response ->
  Forall text_only (GeminiService.response_parts response) ->
  after env (handleSubmit model) s
  = {| selectedImage := selectedImage s; prompt := prompt s;
       isLoading := false; loadingMessage := busy_message s;
       error := Some "No image was generated. Please try a different prompt.";
       resultImage := None; modalImageUrl := modalImageUrl s |}.
Proof.
  intros Hp Hservice Hall.
  rewrite (handleSubmit_outcomes env model s Hp), pipeline_outcome, Hservice.
  now rewrite first_image_none.
Qed.

(** X4.  A rejected remote call ends the submission with the rejection's own
    message, or with "An unexpected error occurred." when it has none or an
    empty one. *)
Theorem handleSubmit_service_failure (s : State) (e : JsError) :
  truthy (prompt s) = true ->
  service env (GeminiService.request model (prompt s) (selectedImage s))
  = Rejected e ->
  after env (handleSubmit model) s
  = {| selectedImage := selectedImage s; prompt := prompt s;
       isLoading := false; loadingMessage := busy_message s;
       error := Some (match message e with
                      | Some (String a m) => String a m
                      | _ => "An unexpected error occurred."
                      end);
       resultImage := None; modalImageUrl := modalImageUrl s |}.
Proof.
  intros Hp Hservice.
  rewrite (handleSubmit_outcomes env model s Hp), pipeline_outcome, Hservice.
  destruct e as [[[|a m]|]]; reflexivity.
Qed.

(** X5.  When the synthesized image cannot be watermarked, nothing of it is
    shown: an image that fails to decode gives the message of the failure,
    which for the browser's message-less [error] event is "An unexpected
    error occurred.", and a missing 2D context gives "Could not get canvas
    context". *)
Theorem handleSubmit_watermark_failure
    (s : State) (response : GenerateContentResponse) (newImage : string) :
  truthy (prompt s) = true ->
  service env (GeminiService.request model (prompt s) (selectedImage s))
  = Resolved response ->
  GeminiService.first_image (GeminiService.response_parts response) = Ret newImage ->
  (decode env newImage = Rejected (mkError None)
   \/ exists img, decode env newImage = Resolved img
                  /\ context2d_available env = false) ->
  after env (handleSubmit model) s
  = {| selectedImage := selectedImage s; prompt := prompt s;
       isLoading := false; loadingMessage := busy_message s;
       error := Some (match decode env newImage with
                      | Rejected _ => "An unexpected error occurred."
                      | Resolved _ => "Could not get canvas context"
                      end);
       resultImage := None; modalImageUrl := modalImageUrl s |}.
Proof.
  intros Hp Hservice Himage Hfail.
  rewrite (handleSubmit_outcomes env model s Hp), pipeline_outcome, Hservice, Himage.
  simpl.
  destruct Hfail as [-> | (img & -> & ->)]; reflexivity.
Qed.

End SubmissionDetails.

Section SubmissionInstances.
Import Js Types Genai Dom Session Effect App Spec Fixture.

Lemma handleSubmit_result_or_error_witness :
  let s' := after studio (handleSubmit "model") balloon in
  isLoading s' = false
  /\ selectedImage s' = None
  /\ prompt s' = "a red balloon"
  /\ modalImageUrl s' = None
  /\ ((exists watermarkedImage,
         resultImage s' = Some watermarkedImage /\ error s' = None)
      \/ (exists msg,
            error s' = Some msg /\ truthy msg = true /\ resultImage s' = None)).
Proof.
  exact (handleSubmit_result_or_error studio "model" balloon eq_refl).
Defined.

Lemma handleSubmit_one_call_one_log_witness :
  fst (run offline (handleSubmit "model" balloon) (world_of balloon)) = Resolved tt
  /\ calls (snd (run offline (handleSubmit "model" balloon) (world_of balloon)))
     = [GeminiService.request "model" "a red balloon" None]
  /\ console (snd (run offline (handleSubmit "model" balloon) (world_of balloon)))
     = [Error "Failed to fetch"].
Proof.
  exact (handleSubmit_one_call_one_log offline "model" balloon eq_refl).
Defined.

Lemma handleSubmit_no_image_witness :
  after (answering [text_part "I cannot draw that."]) (handleSubmit "model") balloon
  = {| selectedImage := None; prompt := "a red balloon"; isLoading := false;
       loadingMessage := "Generating your vision...";
       error := Some "No image was generated. Please try a different prompt.";
       resultImage := None; modalImageUrl := None |}.
Proof.
  refine (handleSubmit_no_image (answering [text_part "I cannot draw that."])
            "model" balloon _ eq_refl eq_refl _).
  constructor; [reflexivity | constructor].
Defined.

Lemma handleSubmit_service_failure_witness :
  after offline (handleSubmit "model") balloon
  = {| selectedImage := None; prompt := "a red balloon"; isLoading := false;
       loadingMessage := "Generating your vision...";
       error := Some "Failed to fetch";
       resultImage := None; modalImageUrl := None |}.
Proof.
  exact (handleSubmit_service_failure offline "model" balloon
           (Error "Failed to fetch") eq_refl eq_refl).
Defined.

Lemma handleSubmit_watermark_failure_witness :
  after Scenario.undecodable (handleSubmit "model") balloon
  = {| selectedImage := None; prompt := "a red balloon"; isLoading := false;
       loadingMessage := "Generating your vision...";
       error := Some "An unexpected error occurred.";
       resultImage := None; modalImageUrl := None |}
  /\ after Scenario.without_context (handleSubmit "model") balloon
     = {| selectedImage := None; prompt := "a red balloon"; isLoading := false;
          loadingMessage := "Generating your vision...";
          error := Some "Could not get canvas context";
          resultImage := None; modalImageUrl := None |}.
Proof.
  split.
  - refine (handleSubmit_watermark_failure Scenario.undecodable "model" balloon
              _ "data:image/png;base64,AAAA" eq_refl eq_refl eq_refl _).
    left. reflexivity.
  - refine (handleSubmit_watermark_failure Scenario.without_context "model" balloon
              _ "data:image/png;base64,AAAA" eq_refl eq_refl eq_refl _).
    right. eexists. split; reflexivity.
Defined.

End SubmissionInstances.

(** ** The refinement loop: a result goes back in as the seed *)

Section Refinement.
Import Js Types Genai Session Effect App Spec Shape.

Lemma eqb_semicolon_sym (a : ascii) :
  Ascii.eqb ";"%char a = Ascii.eqb a ";"%char.
Proof. apply Ascii.eqb_sym. Qed.

(** Without a semicolon there is nothing for the pattern's tail to match. *)
Lemma greedy_capture_none (p : string) :
  free_of ";"%char p = true -> greedy_capture p = None.
Proof.
  induction p as [|a p IH]; [reflexivity|].
  cbn [free_of]. intros H. apply andb_prop in H as [Ha Hp].
  apply negb_true_iff in Ha.
  cbn [greedy_capture startsWith]. rewrite eqb_semicolon_sym, Ha.
  rewrite (IH Hp). now destruct (is_line_terminator a).
Qed.

(** The dot run takes the whole media type, up to the last [;base64,]. *)
Lemma greedy_capture_type (ty p : string) :
  line_free ty = true ->
  free_of ";"%char p = true ->
  greedy_capture (ty ++ ";base64," ++ p) = Some ty.
Proof.
  intros Hty Hp. induction ty as [|a ty IH].
  - change ("" ++ ";base64," ++ p) with (String ";"%char ("base64," ++ p)).
    cbn [greedy_capture]. cbn [is_line_terminator Ascii.eqb orb].
    rewrite greedy_capture_none by exact Hp.
    reflexivity.
  - cbn [line_free] in Hty. apply andb_prop in Hty as [Ha Hty].
    apply negb_true_iff in Ha.
    change (String a ty ++ ";base64," ++ p) with (String a (ty ++ ";base64," ++ p)).
    cbn [greedy_capture]. rewrite Ha, (IH Hty). reflexivity.
Qed.

Lemma match_data_url_built (ty p : string) :
  line_free ty = true ->
  free_of ";"%char p = true ->
  match_data_url (data_url ty p) = Some ty.
Proof.
  intros Hty Hp. unfold data_url.
  change ("data:" ++ ty ++ ";base64," ++ p)
    with (String "d" (String "a" (String "t" (String "a" (String ":"
            (ty ++ ";base64," ++ p)))))).
  cbn [match_data_url startsWith Ascii.eqb Bool.eqb drop].
  now rewrite greedy_capture_type.
Qed.

Variable env : Env.

(** X11.  Promotion takes a base64 data URL apart into the very media type and
    payload it was built from, so the promoted seed image satisfies
    [url = "data:" + mimeType + ";base64," + base64].  The media type must be
    non-empty and free of commas and line terminators, the payload free of
    commas and semicolons, as base64 text is. *)
Theorem handleUseResultAsInput_round_trip (s : State) (ty payload : string) :
  resultImage s = Some (data_url ty payload) ->
  truthy ty = true ->
  line_free ty = true ->
  free_of ","%char ty = true ->
  free_of ","%char payload = true ->
  free_of ";"%char payload = true ->
  selectedImage (after env handleUseResultAsInput s)
  = Some (mkImageData (Some payload) ty (data_url ty payload)).
Proof.
  intros Hr Hty Hline Hcomma Hpc Hps. unfold after.
  rewrite (run_handleUseResultAsInput env s (data_url ty payload) (world_of s) Hr)
    by reflexivity.
  cbn [snd state selectedImage].
  rewrite (match_data_url_built ty payload Hline Hps).
  unfold data_url at 1. rewrite (data_url_payload ty payload Hcomma Hpc).
  destruct ty; [discriminate | reflexivity].
Qed.

Variable model : string.

(** X12.  Refine, then submit: the one request of the second submission carries
    the payload and the media type of the promoted result before the prompt
    text. *)
Theorem refine_then_submit_request (s : State) (ty payload : string) :
  resultImage s = Some (data_url ty payload) ->
  truthy (prompt s) = true ->
  truthy ty = true ->
  line_free ty = true ->
  free_of ","%char ty = true ->
  free_of ","%char payload = true ->
  free_of ";"%char payload = true ->
  let s' := after env handleUseResultAsInput s in
  calls (snd (run env (handleSubmit model s') (world_of s')))
  = [ {| Genai.model := model;
         contents_parts := [InlineDataPart (Some payload) ty; TextPart (prompt s)];
         config_responseModalities := [IMAGE] |} ].
Proof.
  intros Hr Hp Hty Hline Hcomma Hpc Hps. cbv zeta.
  assert (Hsel : selectedImage (after env handleUseResultAsInput s)
                 = Some (mkImageData (Some payload) ty (data_url ty payload))).
  { unfold after.
    rewrite (run_handleUseResultAsInput env s (data_url ty payload) (world_of s) Hr)
      by reflexivity.
    cbn [snd state selectedImage].
    rewrite (match_data_url_built ty payload Hline Hps).
    unfold data_url at 1. rewrite (data_url_payload ty payload Hcomma Hpc).
    destruct ty; [discriminate | reflexivity]. }
  assert (Hprompt : prompt (after env handleUseResultAsInput s) = prompt s).
  { unfold after.
    rewrite (run_handleUseResultAsInput env s (data_url ty payload) (world_of s) Hr)
      by reflexivity.
    reflexivity. }
  destruct (run_handleSubmit_log env model (after env handleUseResultAsInput s))
    as (_ & Hcalls & _).
  { now rewrite Hprompt. }
  rewrite Hcalls, Hsel, Hprompt. reflexivity.
Qed.

End Refinement.

Section RefinementInstances.
Import Js Types Genai Session Effect App Spec Shape Fixture.

Lemma handleUseResultAsInput_round_trip_witness :
  selectedImage (after studio handleUseResultAsInput Scenario.showing)
  = Some (mkImageData (Some "iVBORw0KGgo=") "image/png"
                      "data:image/png;base64,iVBORw0KGgo=").
Proof.
  exact (handleUseResultAsInput_round_trip studio Scenario.showing
           "image/png" "iVBORw0KGgo=" eq_refl eq_refl eq_refl eq_refl eq_refl eq_refl).
Defined.

Lemma refine_then_submit_request_witness :
  let s' := after studio handleUseResultAsInput Scenario.showing in
  calls (snd (run studio (handleSubmit "model" s') (world_of s')))
  = [ {| Genai.model := "model";
         contents_parts := [InlineDataPart (Some "iVBORw0KGgo=") "image/png";
                            TextPart "a red balloon"];
         config_responseModalities := [IMAGE] |} ].
Proof.
  exact (refine_then_submit_request studio "model" Scenario.showing
           "image/png" "iVBORw0KGgo=" eq_refl eq_refl eq_refl eq_refl eq_refl
           eq_refl eq_refl).
Defined.

End RefinementInstances.

(** ** The uploader: file picker and drop zone *)

Section Uploads.
Import Js Types FileReader Session Effect App Uploader Spec.

Variable env : Env.

(** Running the shared [try] block. *)
Lemma run_convert (file : File) (w : World) :
  run env (convert onImageUpload file) w
  = match FileUtils.fileToImageData file with
    | Resolved img =>
        (Resolved tt,
         {| state := apply (setSelectedImage (Some img)) (state w);
            calls := calls w; console := console w |})
    | Rejected e =>
        (Resolved tt,
         {| state := state w; calls := calls w;
            console := (console w ++ [e])%list |})
    end.
Proof.
  unfold convert.
  destruct (FileUtils.fileToImageData file) as [img | e]; reflexivity.
Qed.

(** X13.  A readable first file becomes the seed image, by either route (a
    dropped one must declare an image type); nothing else changes: a result
    or an error on show stays, and further files are ignored. *)
Theorem upload_sets_seed_only
    (file : File) (others : list File) (s : State) :
  readable file = true ->
  exists img,
    FileUtils.fileToImageData file = Resolved img
    /\ mimeType img = type file
    /\ after env (fun _ => handleFileChange onImageUpload (Some (file :: others))) s
       = {| selectedImage := Some img; prompt := prompt s;
            isLoading := isLoading s; loadingMessage := loadingMessage s;
            error := error s; resultImage := resultImage s;
            modalImageUrl := modalImageUrl s |}
    /\ (startsWith "image/" (type file) = true ->
        after env (fun _ => handleDrop onImageUpload (Some (file :: others))) s
        = after env (fun _ => handleFileChange onImageUpload (Some (file :: others))) s).
Proof.
  intros Hread.
  assert (E : exists img, FileUtils.fileToImageData file = Resolved img
                          /\ mimeType img = type file).
  { unfold FileUtils.fileToImageData, readAsDataURL. rewrite Hread.
    eexists. split; reflexivity. }
  destruct E as (img & E & Hty). exists img.
  split; [exact E | split; [exact Hty | split]].
  - unfold after, handleFileChange. cbn [index nth_error].
    rewrite run_convert, E. reflexivity.
  - intros Himg. unfold after, handleDrop, handleFileChange.
    cbn [index nth_error]. now rewrite Himg.
Qed.

(** X14.  A file that cannot be read changes nothing the user sees: the session
    state is untouched, no error banner is raised, and the failure goes to
    the console only. *)
Theorem upload_failure_is_silent
    (file : File) (others : list File) (w : World) :
  readable file = false ->
  run env (handleFileChange onImageUpload (Some (file :: others))) w
  = (Resolved tt,
     {| state := state w; calls := calls w;
        console := (console w ++ [mkError None])%list |}).
Proof.
  intros Hread. unfold handleFileChange. cbn [index nth_error].
  rewrite run_convert.
  unfold FileUtils.fileToImageData, readAsDataURL. now rewrite Hread.
Qed.

(** X15.  Only the drop zone looks at the declared type: a file whose type does
    not start with [image/] is ignored when dropped, without a trace, yet
    accepted as the seed image when chosen through the file picker. *)
Theorem handleDrop_filters_handleFileChange_does_not
    (file : File) (others : list File) (w : World) :
  startsWith "image/" (type file) = false ->
  readable file = true ->
  run env (handleDrop onImageUpload (Some (file :: others))) w = (Resolved tt, w)
  /\ exists img,
       selectedImage
         (state (snd (run env (handleFileChange onImageUpload (Some (file :: others))) w)))
       = Some img
       /\ mimeType img = type file.
Proof.
  intros Hty Hread. split.
  - unfold handleDrop. cbn [index nth_error]. now rewrite Hty.
  - unfold handleFileChange. cbn [index nth_error]. rewrite run_convert.
    unfold FileUtils.fileToImageData, readAsDataURL. rewrite Hread.
    eexists. split; reflexivity.
Qed.

(** Without a file (no list, or an empty one) neither handler does
    anything. *)
Lemma upload_without_file (w : World) :
  run env (handleFileChange onImageUpload None) w = (Resolved tt, w)
  /\ run env (handleFileChange onImageUpload (Some [])) w = (Resolved tt, w)
  /\ run env (handleDrop onImageUpload None) w = (Resolved tt, w)
  /\ run env (handleDrop onImageUpload (Some [])) w = (Resolved tt, w).
Proof. repeat split. Qed.

End Uploads.

Section UploadInstances.
Import Js Types FileReader Session Effect App Uploader Spec Fixture.

Lemma upload_sets_seed_only_witness :
  exists img,
    FileUtils.fileToImageData png_file = Resolved img
    /\ mimeType img = "image/png"
    /\ after studio (fun _ => handleFileChange onImageUpload (Some [png_file; Scenario.text_file]))
         editing
       = {| selectedImage := Some img; prompt := "make it blue";
            isLoading := false;
            loadingMessage := "Applying your creative edits...";
            error := Some "No image was generated. Please try a different prompt.";
            resultImage := None; modalImageUrl := None |}
    /\ (startsWith "image/" "image/png" = true ->
        after studio (fun _ => handleDrop onImageUpload (Some [png_file; Scenario.text_file]))
          editing
        = after studio
            (fun _ => handleFileChange onImageUpload (Some [png_file; Scenario.text_file]))
            editing).
Proof.
  exact (upload_sets_seed_only studio png_file [Scenario.text_file] editing eq_refl).
Defined.

Lemma upload_failure_is_silent_witness :
  run studio (handleFileChange onImageUpload (Some [Scenario.broken_file]))
      (world_of editing)
  = (Resolved tt,
     {| state := editing; calls := []; console := [mkError None] |}).
Proof.
  exact (upload_failure_is_silent studio Scenario.broken_file [] (world_of editing)
           eq_refl).
Defined.

Lemma handleDrop_filters_handleFileChange_does_not_witness :
  run studio (handleDrop onImageUpload (Some [Scenario.text_file])) (world_of balloon)
  = (Resolved tt, world_of balloon)
  /\ exists img,
       selectedImage
         (state (snd (run studio
                        (handleFileChange onImageUpload (Some [Scenario.text_file]))
                        (world_of balloon))))
       = Some img
       /\ mimeType img = "text/plain".
Proof.
  exact (handleDrop_filters_handleFileChange_does_not studio Scenario.text_file []
           (world_of balloon) eq_refl eq_refl).
Defined.

End UploadInstances.

(** ** What the markup offers, and the download *)

Section Page.
Import Js Types Session Effect App View Spec.

Lemma length_append (a b : string) :
  String.length (a ++ b) = String.length a + String.length b.
Proof. induction a as [|x a IH]; simpl; [reflexivity | now rewrite IH]. Qed.

Lemma append_cancel_r (a b t : string) : a ++ t = b ++ t -> a = b.
Proof.
  revert b. induction a as [|x a IH]; intros [|y b] H.
  - reflexivity.
  - apply (f_equal String.length) in H. simpl in H.
    rewrite length_append in H. lia.
  - apply (f_equal String.length) in H. simpl in H.
    rewrite length_append in H. lia.
  - simpl in H. injection H as -> H. f_equal. now apply IH.
Qed.

Lemma decimal_inj (n m : N) : decimal n = decimal m -> n = m.
Proof.
  unfold decimal. intros H.
  apply DecimalN.Unsigned.to_uint_inj.
  assert (Hnil : forall k, N.to_uint k <> Decimal.Nil).
  { intros [|p]; [discriminate | apply DecimalPos.Unsigned.to_uint_nonnil]. }
  assert (E : forall k, DecimalString.NilZero.string_of_uint (N.to_uint k)
                        = DecimalString.NilEmpty.string_of_uint (N.to_uint k)).
  { intros k. specialize (Hnil k). now destruct (N.to_uint k). }
  rewrite !E in H.
  apply (f_equal DecimalString.NilEmpty.uint_of_string) in H.
  rewrite !DecimalString.NilEmpty.usu in H. now injection H.
Qed.

(** X16.  With a result on show, the download links to that result unchanged, and
    two downloads at different milliseconds never get the same file name. *)
Theorem handleDownload_names_differ (s : State) (r : string) (now later : N) :
  resultImage s = Some r ->
  truthy r = true ->
  now <> later ->
  exists d d',
    handleDownload s now = Some d
    /\ handleDownload s later = Some d'
    /\ href d = r /\ href d' = r
    /\ download d <> download d'.
Proof.
  intros Hr Ht Hne. unfold handleDownload. rewrite Hr, Ht. cbn [negb].
  do 2 eexists. repeat split. cbn [download].
  intros H. apply Hne.
  injection H as H.
  apply append_cancel_r in H. now apply decimal_inj.
Qed.

(** Without a result, or with an empty one, the download does nothing. *)
Lemma handleDownload_needs_result (s : State) (now : N) :
  present (resultImage s) = false -> handleDownload s now = None.
Proof.
  unfold handleDownload, present.
  destruct (resultImage s) as [r|]; [|reflexivity].
  now intros ->.
Qed.

End Page.

Section PageInstances.
Import Js Types Session Effect App View Spec Fixture.

Lemma handleDownload_names_differ_witness :
  exists d d',
    handleDownload Scenario.showing 1762116000000 = Some d
    /\ handleDownload Scenario.showing 1762116000001 = Some d'
    /\ href d = watermarked /\ href d' = watermarked
    /\ download d <> download d'.
Proof.
  refine (handleDownload_names_differ Scenario.showing watermarked
            1762116000000 1762116000001 eq_refl eq_refl _).
  discriminate.
Defined.

Example handleDownload_file_name :
  option_map download (handleDownload Scenario.showing 1762116000000)
  = Some "generated-image-by-thara-1762116000000.png".
Proof. reflexivity. Qed.

End PageInstances.

(** ** The page as a whole: one submission at a time, result or error *)

Section PageInvariant.
Import Js Types FileReader Genai Dom Session Effect App View Spec Machine Invariant.

Variable env : Env.
Variable model : string.

Lemma answer_handle {X : Type} (ev : Event X) (w : World) :
  fst (handle env ev w) = answer env ev.
Proof. destruct ev; reflexivity. Qed.

(** The failure path of [handleSubmit] ends idle. *)
Lemma idle_after_failure (s : State) (msg : string) :
  busy s ->
  idle env {| selectedImage := selectedImage s; prompt := prompt s;
              isLoading := false; loadingMessage := loadingMessage s;
              error := Some msg; resultImage := resultImage s;
              modalImageUrl := modalImageUrl s |}.
Proof.
  intros (_ & Hr & _). repeat split; cbn [resultImage].
  - now left.
  - intros r Hr'. rewrite Hr in Hr'. discriminate.
Qed.

Lemma idle_after_success (s : State) (img : HTMLImageElement) :
  busy s ->
  idle env {| selectedImage := selectedImage s; prompt := prompt s;
              isLoading := false; loadingMessage := loadingMessage s;
              error := error s;
              resultImage :=
                Some (encode env (Watermark.composite img "T H A R A") "image/png");
              modalImageUrl := modalImageUrl s |}.
Proof.
  intros (_ & _ & He). repeat split; cbn [resultImage error].
  - now right.
  - intros r [= <-]. now exists img.
Qed.

(** A click on an enabled submit button leaves at once: the loader is up,
    result and error are cleared, the one request is on its way, and the
    handler waits; resumed, it ends idle after at most one more wait. *)
Lemma handleSubmit_suspends (s : State) (w : World) :
  truthy (prompt s) = true ->
  exists t,
    advance env (handleSubmit model s) w
    = ({| state :=
            {| selectedImage := selectedImage (state w); prompt := prompt (state w);
               isLoading := true; loadingMessage := busy_message s;
               error := None; resultImage := None;
               modalImageUrl := modalImageUrl (state w) |};
          calls := (calls w ++ [GeminiService.request model (prompt s) (selectedImage s)])%list;
          console := console w |},
       inr t)
    /\ finishes_within env 1 t.
Proof.
  intros Hp. unfold handleSubmit. rewrite Hp. cbn [negb].
  unfold perform, GeminiService.generateOrEditImage, await.
  cbn [bind try_catch try_finally advance handle suspends apply state calls console].
  eexists. split; [reflexivity|].
  cbn [finishes_within]. intros w0 Hbusy. unfold resume. cbn [answer].
  destruct (service env _) as [response | e].
  - cbn [bind].
    destruct (first_image_settles (GeminiService.response_parts response))
      as [(pre & part & blob & post & _ & _ & _ & E) | [_ E]]; rewrite E.
    + right.
      unfold Watermark.addWatermark, await, perform.
      cbn [bind try_catch try_finally advance handle suspends].
      eexists. eexists. split; [reflexivity|]. split; [exact Hbusy|].
      cbn [finishes_within]. intros w2 Hb2. left. unfold resume. cbn [answer].
      destruct (decode env _) as [img | e].
      * cbn [bind try_catch try_finally advance handle suspends].
        destruct (context2d_available env);
          cbn [negb bind try_catch try_finally advance handle suspends apply state calls console];
          eexists; (split; [reflexivity|]).
        -- cbn [state apply selectedImage prompt isLoading loadingMessage error resultImage modalImageUrl]; now apply idle_after_success.
        -- cbn [state apply selectedImage prompt isLoading loadingMessage error resultImage modalImageUrl]; now apply idle_after_failure.
      * cbn [bind try_catch try_finally advance handle suspends apply state calls console].
        eexists. split; [reflexivity|]. cbn [state apply selectedImage prompt isLoading loadingMessage error resultImage modalImageUrl]; now apply idle_after_failure.
    + left.
      cbn [bind try_catch try_finally advance handle suspends apply state calls console].
      eexists. split; [reflexivity|]. cbn [state apply selectedImage prompt isLoading loadingMessage error resultImage modalImageUrl]; now apply idle_after_failure.
  - left.
    cbn [bind try_catch try_finally advance handle suspends apply state calls console].
    eexists. split; [reflexivity|]. cbn [state apply selectedImage prompt isLoading loadingMessage error resultImage modalImageUrl]; now apply idle_after_failure.
Qed.


Lemma idle_kept (s s' : State) :
  isLoading s' = isLoading s ->
  (resultImage s' = resultImage s \/ resultImage s' = None) ->
  (error s' = error s \/ error s' = None) ->
  idle env s -> idle env s'.
Proof.
  intros Hl Hr He (Il & Ix & Iw). repeat split.
  - now rewrite Hl.
  - destruct Hr as [-> | ->]; [|now left].
    destruct He as [-> | ->]; [exact Ix | now right].
  - intros r Hr'. destruct Hr as [Hr | Hr]; rewrite Hr in Hr'; [|discriminate].
    now apply Iw.
Qed.

Lemma busy_kept (s s' : State) :
  isLoading s' = isLoading s ->
  (resultImage s' = resultImage s \/ resultImage s' = None) ->
  (error s' = error s \/ error s' = None) ->
  busy s -> busy s'.
Proof.
  intros Hl Hr He (Bl & Br & Be). repeat split.
  - now rewrite Hl.
  - destruct Hr as [-> | ->]; [exact Br | reflexivity].
  - destruct He as [-> | ->]; [exact Be | reflexivity].
Qed.

(** Every handler but [handleSubmit] runs to its end at once, leaves the
    busy flag alone and can only clear the result and the error. *)
Lemma other_handlers_finish (a : Action) (w : World) :
  a <> ClickSubmit ->
  exists w',
    advance env (handler model (state w) a) w = (w', inl (Resolved tt))
    /\ isLoading (state w') = isLoading (state w)
    /\ (resultImage (state w') = resultImage (state w) \/ resultImage (state w') = None)
    /\ (error (state w') = error (state w) \/ error (state w') = None).
Proof.
  intros Ha. destruct a as [v | files | files | | | | | |]; cbn [handler].
  - eexists. split; [reflexivity|]. cbn. auto.
  - unfold Uploader.handleFileChange.
    destruct files as [[|f fs]|]; cbn [index nth_error];
      try (eexists; split; [reflexivity|]; auto).
    unfold Uploader.convert.
    destruct (FileUtils.fileToImageData f); eexists; (split; [reflexivity|]); cbn; auto.
  - unfold Uploader.handleDrop.
    destruct files as [[|f fs]|]; cbn [index nth_error];
      try (eexists; split; [reflexivity|]; auto).
    destruct (startsWith "image/" (type f));
      [|eexists; split; [reflexivity|]; auto].
    unfold Uploader.convert.
    destruct (FileUtils.fileToImageData f); eexists; (split; [reflexivity|]); cbn; auto.
  - eexists. split; [reflexivity|]. cbn. auto.
  - unfold handleUseResultAsInput.
    destruct (resultImage (state w)) as [r|] eqn:Hr;
      [|eexists; split; [reflexivity|]; auto].
    destruct (truthy r); eexists; (split; [reflexivity|]); cbn; auto.
  - eexists. split; [reflexivity|]. auto.
  - eexists. split; [reflexivity|]. cbn. auto.
  - eexists. split; [reflexivity|]. cbn. auto.
  - now contradiction Ha.
Qed.

Lemma finishes_mono (t : Task) :
  finishes_within env 0 t -> finishes_within env 1 t.
Proof.
  cbn [finishes_within]. intros H w Hb.
  destruct (H w Hb) as [Hdone | []]. now left.
Qed.

(** The invariant of the page. *)
Lemma reachable_holds (pg : Page) : reachable env model pg -> holds env pg.
Proof.
  induction 1 as [|pg pg' _ IH Hstep].
  - repeat split; cbn; auto. intros r Hr. discriminate Hr.
  - destruct Hstep as [pg a Hoff | pg before after t Hw]; unfold holds in *.
    + destruct (waiting pg) as [|t [|t2 rest]] eqn:Hwait; [| |contradiction].
      * (* idle *)
        destruct a as [v | files | files | | | | | |];
          try (match goal with |- context [handler model _ ?a] =>
                 destruct (other_handlers_finish a (world pg)) as (w' & E & Hl & Hr & He);
                   [discriminate|]; rewrite E; cbn [park waiting world];
                   now apply (idle_kept (state (world pg)))
               end).
        cbn [offered] in Hoff. unfold isSubmitDisabled in Hoff.
        apply negb_true_iff, orb_false_iff in Hoff as [Hp _].
        apply negb_false_iff in Hp.
        cbn [handler].
        destruct (handleSubmit_suspends (state (world pg)) (world pg) Hp)
          as (t & E & Hfin).
        rewrite E. cbn [park waiting world app state].
        split; [repeat split | exact Hfin].
      * (* busy *)
        destruct IH as [Hbusy Hfin].
        pose proof Hbusy as (Hl0 & _ & _).
        destruct a as [v | files | files | | | | | |];
          cbn [offered] in Hoff;
          unfold textareaDisabled, resultShown, isSubmitDisabled in Hoff;
          rewrite ?Hl0, ?orb_true_r in Hoff; try discriminate Hoff;
          match goal with |- context [handler model _ ?a] =>
            destruct (other_handlers_finish a (world pg)) as (w' & E & Hl & Hr & He);
              [discriminate|]; rewrite E; cbn [park waiting world];
              split; [now apply (busy_kept (state (world pg))) | exact Hfin]
          end.
    + destruct (waiting pg) as [|t0 [|t2 rest]] eqn:Hwait; [| |contradiction].
      * now destruct before.
      * destruct IH as [Hbusy Hfin].
        assert (before = [] /\ after = [] /\ t = t0) as (-> & -> & ->).
        { destruct before as [|b [|b2 before]]; cbn in Hw.
          - injection Hw as -> <-. auto.
          - discriminate Hw.
          - discriminate Hw. }
        cbn [app]. cbn [finishes_within] in Hfin.
        destruct (Hfin (world pg) Hbusy)
          as [(w' & E & Hidle) | (w' & t' & E & Hb' & Hfin')]; rewrite E.
        -- exact Hidle.
        -- cbn [park waiting world app].
           split; [exact Hb' | now apply finishes_mono].
Qed.

(** Resuming the oldest waiting handler is a step of the page. *)
Lemma settle_reachable (pg : Page) :
  reachable env model pg -> reachable env model (Tour.settle env pg).
Proof.
  intros H. unfold Tour.settle.
  destruct (waiting pg) as [|t rest] eqn:Hw; [exact H|].
  apply (reach_step env model pg _ H).
  exact (step_resume env model pg [] rest t Hw).
Qed.


(** X17.  Result and error are never on show together, and while a submission is
    under way neither is. *)
Theorem page_result_or_error (pg : Page) :
  reachable env model pg ->
  let s := state (world pg) in
  (resultImage s = None \/ error s = None)
  /\ (isLoading s = true -> resultImage s = None /\ error s = None).
Proof.
  intros H. apply reachable_holds in H. unfold holds in H. cbv zeta.
  destruct (waiting pg) as [|t [|t2 rest]]; [| |contradiction].
  - destruct H as (Hl & Hx & _). split; [exact Hx|].
    intros Hb. rewrite Hb in Hl. discriminate Hl.
  - destruct H as [(_ & Hr & He) _]. split; [now left | now split].
Qed.


(** X19.  A result on show has always been through the watermark: it is the
    encoding of a canvas that [addWatermark] composed. *)
Theorem page_result_is_watermarked (pg : Page) (r : string) :
  reachable env model pg ->
  resultImage (state (world pg)) = Some r ->
  exists img, r = encode env (Watermark.composite img "T H A R A") "image/png".
Proof.
  intros H Hr. apply reachable_holds in H. unfold holds in H.
  destruct (waiting pg) as [|t [|t2 rest]]; [| |contradiction].
  - destruct H as (_ & _ & Hw). now apply Hw.
  - destruct H as [(_ & Hn & _) _]. rewrite Hn in Hr. discriminate Hr.
Qed.


(** X21.  A click on the enabled submit button shows at once: before any answer,
    the loader is up with its message, result and error are cleared, the one
    request has left, and the handler waits. *)
Theorem handleSubmit_goes_busy_at_once (s : State) :
  offered s ClickSubmit = true ->
  exists t,
    advance env (handleSubmit model s) (world_of s)
    = ({| state :=
            {| selectedImage := selectedImage s; prompt := prompt s;
               isLoading := true; loadingMessage := busy_message s;
               error := None; resultImage := None;
               modalImageUrl := modalImageUrl s |};
          calls := [GeminiService.request model (prompt s) (selectedImage s)];
          console := [] |},
       inr t).
Proof.
  intros Hoff. cbn [offered] in Hoff. unfold isSubmitDisabled in Hoff.
  apply negb_true_iff, orb_false_iff in Hoff as [Hp _].
  apply negb_false_iff in Hp.
  destruct (handleSubmit_suspends s (world_of s) Hp) as (t & E & _).
  exists t. exact E.
Qed.

End PageInvariant.

Section PageInvariantInstances.
Import Js Types Session Effect App View Machine Invariant Fixture Tour.

Lemma tour_reachable :
  reachable studio "model" typed
  /\ reachable studio "model" submitted
  /\ reachable studio "model" answered
  /\ reachable studio "model" finished.
Proof.
  assert (H1 : reachable studio "model" typed).
  { apply (reach_step studio "model" start); [constructor|].
    exact (step_act studio "model" start (TypePrompt "a red balloon") eq_refl). }
  assert (H2 : reachable studio "model" submitted).
  { apply (reach_step studio "model" typed); [exact H1|].
    exact (step_act studio "model" typed ClickSubmit eq_refl). }
  assert (H3 : reachable studio "model" answered).
  { now apply settle_reachable. }
  assert (H4 : reachable studio "model" finished).
  { now apply settle_reachable. }
  auto.
Qed.

Example tour_states :
  state (world submitted)
  = {| selectedImage := None; prompt := "a red balloon"; isLoading := true;
       loadingMessage := "Generating your vision..."; error := None;
       resultImage := None; modalImageUrl := None |}
  /\ List.length (waiting submitted) = 1%nat
  /\ List.length (waiting answered) = 1%nat
  /\ waiting finished = []
  /\ state (world finished)
     = {| selectedImage := None; prompt := "a red balloon"; isLoading := false;
          loadingMessage := "Generating your vision..."; error := None;
          resultImage := Some watermarked; modalImageUrl := None |}.
Proof. repeat split; vm_compute; reflexivity. Qed.

Lemma page_result_or_error_witness :
  let s := state (world finished) in
  (resultImage s = None \/ error s = None)
  /\ (isLoading s = true -> resultImage s = None /\ error s = None).
Proof.
  exact (page_result_or_error studio "model" finished
           (proj2 (proj2 (proj2 tour_reachable)))).
Defined.


Lemma page_result_is_watermarked_witness :
  exists img,
    watermarked
    = encode studio (Watermark.composite img "T H A R A") "image/png".
Proof.
  exact (page_result_is_watermarked studio "model" finished watermarked
           (proj2 (proj2 (proj2 tour_reachable))) eq_refl).
Defined.


Lemma handleSubmit_goes_busy_at_once_witness :
  exists t,
    advance studio (handleSubmit "model" balloon) (world_of balloon)
    = ({| state :=
            {| selectedImage := None; prompt := "a red balloon";
               isLoading := true; loadingMessage := "Generating your vision...";
               error := None; resultImage := None; modalImageUrl := None |};
          calls := [GeminiService.request "model" "a red balloon" None];
          console := [] |},
       inr t).
Proof.
  exact (handleSubmit_goes_busy_at_once studio "model" balloon eq_refl).
Defined.

End PageInvariantInstances.

(** ** The font size on small images *)

Section SmallImages.
Import Number Dom Watermark Spec.

Local Open Scope Z_scope.

(** The order of numbers is transitive where no NaN and no negative number
    is involved. *)
Lemma SFleb_trans (x y z : number) :
  sign_clear x -> sign_clear y -> sign_clear z ->
  SFleb x y = true -> SFleb y z = true -> SFleb x z = true.
Proof.
  unfold SFleb.
  destruct x as [[]|[]| |[] mx ex]; cbn [sign_clear]; try contradiction; intros _;
    destruct y as [[]|[]| |[] my ey]; cbn [sign_clear]; try contradiction; intros _;
    destruct z as [[]|[]| |[] mz ez]; cbn [sign_clear]; try contradiction; intros _;
    cbn [SFcompare]; try reflexivity; try discriminate; try (intros _; discriminate).
  destruct (Z.compare_spec ex ey) as [-> | Hxy | Hxy]; try discriminate;
    destruct (Z.compare_spec ey ez) as [-> | Hyz | Hyz]; try discriminate;
    rewrite ?Z.compare_refl;
    try (destruct (Z.compare_spec ex ez) as [-> | Hxz | Hxz]; try lia; reflexivity);
    try (destruct (Z.compare_spec ey ez) as [E | Hxz | Hxz]; try lia; reflexivity).
  change (Pos.compare_cont Eq mx my) with (Pos.compare mx my).
  change (Pos.compare_cont Eq my mz) with (Pos.compare my mz).
  change (Pos.compare_cont Eq mx mz) with (Pos.compare mx mz).
  destruct (Pos.compare_spec mx my); try discriminate;
    destruct (Pos.compare_spec my mz); try discriminate;
    destruct (Pos.compare_spec mx mz); try reflexivity; lia.
Qed.

(** Up to 600 pixels of width the first candidate does not exceed 12, and
    up to 400 pixels of height the second one does not. *)
Lemma candidates_below_12 :
  forallb (fun w => SFleb (mul (of_unsigned w) (literal 2 2)) (of_int 12))
          (map N.of_nat (seq 0 601)) = true
  /\ forallb (fun h => SFleb (mul (of_unsigned h) (literal 3 2)) (of_int 12))
             (map N.of_nat (seq 0 401)) = true.
Proof. split; vm_compute; reflexivity. Qed.

Lemma in_range (n : N) (bound : nat) :
  (n < N.of_nat bound)%N -> In n (map N.of_nat (seq 0 bound)).
Proof.
  intros H. rewrite <- (N2Nat.id n). apply in_map, in_seq. lia.
Qed.

Lemma smaller_le (x y : number) :
  sign_clear x -> sign_clear y ->
  SFleb (smaller x y) x = true /\ SFleb (smaller x y) y = true.
Proof.
  intros Hx Hy.
  destruct (compare_sign_clear x y Hx Hy) as (c & Hxy & Hyx & Heq).
  destruct (compare_sign_clear x x Hx Hx) as (cx & Hxx & Hxx' & _).
  destruct (compare_sign_clear y y Hy Hy) as (cy & Hyy & Hyy' & _).
  assert (cx = Eq) by (destruct cx; simpl in Hxx'; congruence). subst cx.
  assert (cy = Eq) by (destruct cy; simpl in Hyy'; congruence). subst cy.
  unfold smaller, SFltb, SFleb. rewrite Hyx.
  destruct c; simpl; rewrite ?Hxx, ?Hyy, ?Hxy, ?Hyx; simpl; auto.
Qed.

(** X10.  An image no wider than 600 pixels, or no taller than 400, is always
    labelled at the floor of 12 pixels. *)
Theorem fontSize_small_image (img : HTMLImageElement) :
  (img_width img <= 600 \/ img_height img <= 400)%N ->
  fontSize img = of_int 12.
Proof.
  intros Hsmall. rewrite fontSize_refines. unfold fontSize_spec. cbv zeta.
  destruct (candidates_sign_clear (img_width img)) as [Ha _].
  destruct (candidates_sign_clear (img_height img)) as [_ Hb].
  set (a := mul (of_unsigned (img_width img)) (literal 2 2)) in *.
  set (b := mul (of_unsigned (img_height img)) (literal 3 2)) in *.
  destruct (Math_min_is_smaller a b Ha Hb) as [_ Hc].
  destruct (smaller_le a b Ha Hb) as [Hca Hcb].
  assert (Hle : SFleb (smaller a b) (of_int 12) = true).
  { destruct candidates_below_12 as [Hw Hh].
    rewrite forallb_forall in Hw, Hh.
    destruct Hsmall as [Hs | Hs].
    - apply (SFleb_trans (smaller a b) a (of_int 12) Hc Ha I Hca).
      apply Hw, in_range. lia.
    - apply (SFleb_trans (smaller a b) b (of_int 12) Hc Hb I Hcb).
      apply Hh, in_range. lia. }
  destruct (compare_sign_clear (smaller a b) (of_int 12) Hc I) as (k & Hk & _ & Heq).
  unfold larger, SFltb. unfold SFleb in Hle. rewrite Hk in *.
  destruct k; try reflexivity; try discriminate.
  now apply Heq.
Qed.

End SmallImages.

Section SmallImageInstances.
Import Number Dom Watermark Spec.

Lemma fontSize_small_image_witness :
  fontSize (mkImage "data:image/png;base64,AAAA" 600 4000) = of_int 12.
Proof.
  refine (fontSize_small_image (mkImage "data:image/png;base64,AAAA" 600 4000) _).
  left. discriminate.
Defined.

(** One pixel more in both directions and the label grows. *)
Example fontSize_above_floor :
  SFltb (of_int 12) (fontSize (mkImage "data:image/png;base64,AAAA" 601 401)) = true.
Proof. vm_compute. reflexivity. Qed.

End SmallImageInstances.

(** ** Across the units: what is uploaded is what is sent *)

Section AcrossUnits.
Import Js Types FileReader Genai Session Effect App View Spec.

Variable env : Env.
Variable model : string.


(** X22.  Upload, then submit: the one request carries the base64 text of the
    file's bytes and the file's declared media type, followed by the prompt.
    The file must be readable and its declared type non-empty and free of
    commas. *)
Theorem upload_then_submit_request
    (file : File) (others : list File) (s : State) :
  readable file = true ->
  truthy (type file) = true ->
  free_of ","%char (type file) = true ->
  truthy (prompt s) = true ->
  let s' :=
    after env (fun _ => Uploader.handleFileChange onImageUpload (Some (file :: others))) s in
  calls (snd (run env (handleSubmit model s') (world_of s')))
  = [ {| Genai.model := model;
         contents_parts :=
           [InlineDataPart (Some (Base64.encode (bytes file))) (type file);
            TextPart (prompt s)];
         config_responseModalities := [IMAGE] |} ].
Proof.
  intros Hread Hty Hfree Hp. cbv zeta.
  set (s' := after env _ s).
  assert (Hs' : s' = {| selectedImage :=
                          Some (mkImageData (Some (Base64.encode (bytes file))) (type file)
                                  ("data:" ++ type file ++ ";base64,"
                                   ++ Base64.encode (bytes file)));
                        prompt := prompt s; isLoading := isLoading s;
                        loadingMessage := loadingMessage s; error := error s;
                        resultImage := resultImage s;
                        modalImageUrl := modalImageUrl s |}).
  { subst s'. unfold after, Uploader.handleFileChange. cbn [index nth_error].
    rewrite run_convert.
    unfold FileUtils.fileToImageData, readAsDataURL, effective_type.
    rewrite Hread, Hty.
    rewrite (data_url_payload (type file) (Base64.encode (bytes file)) Hfree
               (encode_free_of_comma _)).
    reflexivity. }
  destruct (run_handleSubmit_log env model s') as (_ & Hcalls & _).
  { rewrite Hs'. exact Hp. }
  rewrite Hcalls, Hs'. reflexivity.
Qed.

(** X23.  Refine moves the picture across the page: the result pane is empty, its
    Refine and Download buttons are gone, and the promoted picture is in the
    uploader's preview with the remove button on it. *)
Theorem refine_moves_result_to_preview (s : State) (r : string) :
  resultImage s = Some r ->
  truthy r = true ->
  let s' := after env handleUseResultAsInput s in
  imagePreviewUrl s' = Some r
  /\ removeButtonShown s' = true
  /\ resultShown s' = false
  /\ Machine.offered s' Machine.ClickRefine = false
  /\ Machine.offered s' Machine.ClickDownload = false.
Proof.
  intros Hr Ht. cbv zeta. unfold after.
  rewrite (run_handleUseResultAsInput env s r (world_of s) Hr Ht).
  cbn [snd state Machine.offered].
  unfold removeButtonShown, resultShown, imagePreviewUrl.
  cbn [selectedImage url resultImage present]. rewrite Ht.
  cbn [present]. rewrite Ht, andb_false_r. repeat split.
Qed.

End AcrossUnits.

Section AcrossUnitsInstances.
Import Js Types FileReader Genai Session Effect App View Spec Fixture.

Lemma upload_then_submit_request_witness :
  let s' :=
    after studio (fun _ => Uploader.handleFileChange onImageUpload (Some [png_file]))
      balloon in
  calls (snd (run studio (handleSubmit "model" s') (world_of s')))
  = [ {| Genai.model := "model";
         contents_parts := [InlineDataPart (Some "TWFu") "image/png";
                            TextPart "a red balloon"];
         config_responseModalities := [IMAGE] |} ].
Proof.
  exact (upload_then_submit_request studio "model" png_file [] balloon
           eq_refl eq_refl eq_refl eq_refl).
Defined.

Lemma refine_moves_result_to_preview_witness :
  let s' := after studio handleUseResultAsInput Scenario.showing in
  imagePreviewUrl s' = Some watermarked
  /\ removeButtonShown s' = true
  /\ resultShown s' = false
  /\ Machine.offered s' Machine.ClickRefine = false
  /\ Machine.offered s' Machine.ClickDownload = false.
Proof.
  exact (refine_moves_result_to_preview studio Scenario.showing watermarked
           eq_refl eq_refl).
Defined.

End AcrossUnitsInstances.

(** ** The two interpreters agree *)

Section Interpreters.
Import Js Effect Machine.

Variable env : Env.

(** Running a handler to its first [await] and then resuming it without
    anything in between is running it in one go. *)
Lemma advance_agrees_with_run (p : Prog unit) :
  forall w,
    match advance env p w with
    | (w', inl o) => run env p w = (o, w')
    | (w', inr t) => run env p w = run_task env t w'
    end.
Proof.
  induction p as [a | e | X ev k IH]; intros w; cbn [advance run]; try reflexivity.
  destruct ev; cbn [handle suspends answer run_task]; try reflexivity; apply IH.
Qed.

End Interpreters.
